(** * Student Notes API: a shallow embedding of [server.js]

    The development follows the source file top to bottom: the JavaScript
    built-ins the program calls (string trimming, case folding, substring
    search, [parseInt]), the values [JSON.parse] and [express.json()] hand to
    it, the start-up code ([loadNotes]), [saveNotes], the validation
    middleware ([validateNote]), the route handlers and, in front of and
    behind them, what [cors()], [express.json()] and the global error handler
    do to a request.  The second copy of the program ([part_000]) has the same
    functions with the same bodies; it leaves out the [try]/[catch] around
    three handlers and is written for Express 5, where a request can reach
    [validateNote] without a body.

    Modelling conventions.
    - A JavaScript string is a [string]: a sequence of code units, each below
      U+0100.  On that range [trim] and [toLowerCase] are written out in full.
    - A JavaScript number is a [number]: [NaN] or an integer.  The counter and
      the ids are integers; on integers of magnitude up to 2^53 the double
      arithmetic of the program ([nextId++], [max + 1], [===]) is exact and is
      the arithmetic of [Z].  The counter computed at start-up is rounded as a
      double is ([round53]); the handlers are written with the arithmetic of
      [Z], and every statement that depends on the counter or on the decimal
      form of an id carries the bound under which that is the program's
      arithmetic ([safe], or a counter of at most 2^53).
    - The clock ([new Date().toISOString()]) and the outcome of
      [fs.writeFile] are inputs of a request ([env]).
    - Requests are served one at a time: a handler runs to its response
      before the next request is looked at. *)

From Stdlib Require Import ZArith Lia Ascii.
From stdpp Require Import base numbers option list strings.

Local Open Scope Z_scope.
Set Warnings "-register-all".

(* ================================================================= *)
(** * Part I: the program *)

(** ** Strings *)

Module JsString.

(** [s.charCodeAt(i)] of a single code unit. *)
Definition code (c : ascii) : Z := Z.of_N (Ascii.N_of_ascii c).

Definition fromCharCode (z : Z) : ascii := Ascii.ascii_of_N (Z.to_N z).

(** WhiteSpace and LineTerminator code points below U+0100: TAB, LF, VT, FF,
    CR, SP and NBSP.  These are what [String.prototype.trim] strips and what
    [parseInt] skips. *)
Definition is_whitespace (c : ascii) : bool :=
  let n := code c in
  (9 <=? n) && (n <=? 13) || (n =? 32) || (n =? 160).

Fixpoint trimStart (s : string) : string :=
  match s with
  | EmptyString => EmptyString
  | String c s' => if is_whitespace c then trimStart s' else s
  end.

Fixpoint trimEnd (s : string) : string :=
  match s with
  | EmptyString => EmptyString
  | String c s' =>
      match trimEnd s' with
      | EmptyString => if is_whitespace c then EmptyString else String c EmptyString
      | t => String c t
      end
  end.

(** [s.trim()] *)
Definition trim (s : string) : string := trimEnd (trimStart s).

(** Upper-case letters below U+0100: A-Z, and U+00C0-U+00DE without the
    multiplication sign U+00D7.  Each has its lower-case partner 32 above. *)
Definition is_upper (c : ascii) : bool :=
  let n := code c in
  (65 <=? n) && (n <=? 90) || (192 <=? n) && (n <=? 222) && negb (n =? 215).

Definition lower_char (c : ascii) : ascii :=
  if is_upper c then fromCharCode (code c + 32) else c.

(** [s.toLowerCase()] *)
Fixpoint toLowerCase (s : string) : string :=
  match s with
  | EmptyString => EmptyString
  | String c s' => String (lower_char c) (toLowerCase s')
  end.

(** [s.startsWith(t)] *)
Fixpoint startsWith (s t : string) {struct t} : bool :=
  match t, s with
  | EmptyString, _ => true
  | String _ _, EmptyString => false
  | String b t', String a s' => bool_decide (a = b) && startsWith s' t'
  end.

(** [s.includes(t)]: [t] occurs in [s] at some position. *)
Fixpoint includes (s t : string) : bool :=
  startsWith s t ||
  match s with
  | EmptyString => false
  | String _ s' => includes s' t
  end.

End JsString.

(** ** Numbers *)

Inductive number :=
  | NaN
  | Num (z : Z).

#[global] Instance number_eq_dec : EqDecision number.
Proof. solve_decision. Defined.

Definition isNaN (n : number) : bool :=
  match n with NaN => true | Num _ => false end.

(** [a === b] on numbers: [NaN] differs from everything, itself included. *)
Definition strict_eq (a b : number) : bool :=
  match a, b with
  | Num x, Num y => x =? y
  | _, _ => false
  end.

(** The integer a double holds in place of the integer [z]: [z] itself up to
    magnitude 2^53; beyond that the nearest integer with a significand of 53
    bits, a tie going to the even significand (magnitudes below 2^1024). *)
Definition round53 (z : Z) : Z :=
  let a := Z.abs z in
  if a <=? 2 ^ 53 then z
  else
    let u := 2 ^ (Z.log2 a - 52) in
    let q := a / u in
    let r := a mod u in
    let q' := if 2 * r <? u then q
              else if u <? 2 * r then q + 1
              else if Z.even q then q else q + 1 in
    Z.sgn z * (q' * u).

(** [n + 1], in double arithmetic. *)
Definition add1 (n : number) : number :=
  match n with NaN => NaN | Num z => Num (round53 (z + 1)) end.

Module JsNumber.
Import JsString.

(** The value of a code unit as a digit: 0-9, then a-z and A-Z for 10-35. *)
Definition digit_value (c : ascii) : option Z :=
  let n := code c in
  if (48 <=? n) && (n <=? 57) then Some (n - 48)
  else if (97 <=? n) && (n <=? 122) then Some (n - 87)
  else if (65 <=? n) && (n <=? 90) then Some (n - 55)
  else None.

(** The longest prefix of [s] made of radix-[R] digits, as digit values. *)
Fixpoint digits (R : Z) (s : string) : list Z :=
  match s with
  | EmptyString => []
  | String c s' =>
      match digit_value c with
      | Some d => if d <? R then d :: digits R s' else []
      | None => []
      end
  end.

Definition value_of (R : Z) (ds : list Z) : Z :=
  fold_left (fun acc d => acc * R + d) ds 0.

(** A leading [-] or [+] and what follows it. *)
Definition strip_sign (s : string) : Z * string :=
  match s with
  | String c r =>
      if bool_decide (c = "-"%char) then (-1, r)
      else if bool_decide (c = "+"%char) then (1, r)
      else (1, s)
  | EmptyString => (1, s)
  end.

(** A leading [0x] or [0X] selects radix 16; the radix is 10 otherwise. *)
Definition strip_prefix (s : string) : Z * string :=
  match s with
  | String c0 (String c1 r) =>
      if bool_decide (c0 = "0"%char) &&
         (bool_decide (c1 = "x"%char) || bool_decide (c1 = "X"%char))
      then (16, r) else (10, s)
  | _ => (10, s)
  end.

(** [parseInt(s)] with no radix argument: skip leading white space, take a
    sign, take a [0x]/[0X] prefix, read digits as far as they go; no digit at
    all is [NaN].  The result is the integer the digits denote; the program's
    is the double nearest to it, the same number up to magnitude 2^53. *)
Definition parseInt (s : string) : number :=
  let '(sign, s2) := strip_sign (trimStart s) in
  let '(R, s3) := strip_prefix s2 in
  match digits R s3 with
  | [] => NaN
  | ds => Num (sign * value_of R ds)
  end.

Definition digit_char (d : Z) : ascii := fromCharCode (48 + d).

Fixpoint decimal (fuel : nat) (n : Z) (acc : string) : string :=
  let acc' := String (digit_char (n mod 10)) acc in
  match fuel with
  | O => acc'
  | S fuel' => if n <? 10 then acc' else decimal fuel' (n / 10) acc'
  end.

(** [String(n)] of an integer [n], as it appears in a URL path built from a
    note's id (decimal digits, [-] in front of a negative one): the program's
    [String(n)] for a safe integer, and for any double below 10^21. *)
Definition toString (n : Z) : string :=
  if n <? 0 then String "-" (decimal (Z.to_nat (Z.log2 (- n))) (- n) EmptyString)
  else decimal (Z.to_nat (Z.log2 n)) n EmptyString.

End JsNumber.

(** ** Values parsed from JSON *)

(** What [JSON.parse] and [express.json()] produce.  An object is its table of
    own properties (keys are distinct after parsing).  Numeric literals of the
    model are the integers. *)
Inductive json :=
  | JNull
  | JBool (b : bool)
  | JNum (z : Z)
  | JStr (s : string)
  | JArr (items : list json)
  | JObj (fields : list (string * json)).

Definition object := list (string * json).

(** [o.k] on an object; [None] is [undefined]. *)
Fixpoint prop (k : string) (o : object) : option json :=
  match o with
  | [] => None
  | (k', v) :: o' => if decide (k = k') then Some v else prop k o'
  end.

(** [!!v]: [undefined], [null], [false], [0] and [''] are falsy. *)
Definition truthy (v : option json) : bool :=
  match v with
  | None | Some JNull => false
  | Some (JBool b) => b
  | Some (JNum z) => negb (z =? 0)
  | Some (JStr s) => negb (bool_decide (s = EmptyString))
  | Some (JArr _) | Some (JObj _) => true
  end.

(** [typeof v === 'string'] *)
Definition is_string (v : option json) : bool :=
  match v with Some (JStr _) => true | _ => false end.

(** [Array.isArray(v)] *)
Definition isArray (v : option json) : bool :=
  match v with Some (JArr _) => true | _ => false end.

(** [v !== undefined] *)
Definition defined (v : option json) : bool :=
  match v with Some _ => true | None => false end.

(** [v.trim()]: a string method; on anything else the call is a TypeError
    ([None]). *)
Definition trimmed (v : option json) : option string :=
  match v with Some (JStr s) => Some (JsString.trim s) | _ => None end.

(** [tag => tag.trim()] *)
Definition trim_tag (tag : json) : option string := trimmed (Some tag).

(** [v.map(tag => tag.trim())] *)
Definition trimmed_all (v : option json) : option (list string) :=
  match v with
  | Some (JArr items) => mapM trim_tag items
  | _ => None
  end.

(** ** Notes and the store *)

Record Note := {
  id : Z;
  title : string;
  content : string;
  tags : list string;
  createdAt : string;
  updatedAt : string
}.

#[global] Instance Note_eq_dec : EqDecision Note.
Proof. solve_decision. Defined.

(** The two module-level variables of the program, [notes] and [nextId], once
    the collection holds note objects.  The counter and the ids are the
    integers that the program's doubles hold. *)
Record store := {
  notes : list Note;
  nextId : Z
}.

Definition ids (st : store) : list Z := map id (notes st).

(** ** Start-up: [loadNotes] *)

Module Startup.

(** What the first two statements of the [try] block yield:
    [fs.readFile] rejects, [JSON.parse] throws, or there is a parsed value. *)
Inductive file_read :=
  | ReadFailed
  | ParseFailed
  | Parsed (loadedNotes : json).

(** [notes] and [nextId] as start-up sees them: [notes] is whatever value the
    file held. *)
Record state := {
  notes : json;
  nextId : number
}.

(** [let notes = []; let nextId = 1;] *)
Definition initial : state := {| notes := JArr []; nextId := Num 1 |}.

(** [note.id] for an element of the array: reading a property of [null] is a
    TypeError (outer [None]); a primitive or an array has no [id]. *)
Definition get_id (note : json) : option (option json) :=
  match note with
  | JNull => None
  | JObj fields => Some (prop "id" fields)
  | _ => Some None
  end.

(** [notes.map(note => note.id)]: only an array has a callable [map]. *)
Definition map_ids (v : json) : option (list (option json)) :=
  match v with
  | JArr items => mapM get_id items
  | _ => None
  end.

(** [Math.max] of two numbers. *)
Definition max2 (a b : number) : number :=
  match a, b with
  | Num x, Num y => Num (Z.max x y)
  | _, _ => NaN
  end.

Section Coercions.

(** ECMAScript's coercions of a string and of an object to a number, which
    [Math.max] applies to an argument that is not a number already.  They are
    the language's, not the program's; [ObjectToNumber] may throw ([None]). *)
Variable StringToNumber : string -> number.
Variable ObjectToNumber : json -> option number.

(** The number of arguments the engine passes in one call: a spread call
    with more throws a RangeError.  The number depends on the engine and on
    its stack. *)
Variable max_arguments : Z.

Definition ToNumber (v : option json) : option number :=
  match v with
  | None => Some NaN
  | Some JNull => Some (Num 0)
  | Some (JBool b) => Some (Num (if b then 1 else 0))
  | Some (JNum z) => Some (Num z)
  | Some (JStr s) => Some (StringToNumber s)
  | Some (JArr items) => ObjectToNumber (JArr items)
  | Some (JObj fields) => ObjectToNumber (JObj fields)
  end.

(** [Math.max(...args, 0)]: the call passes one argument more than [args] has
    elements and throws when that is more than the engine passes; otherwise
    every argument is coerced first, then compared. *)
Definition Math_max_0 (args : list (option json)) : option number :=
  if max_arguments <? Z.of_nat (length args) + 1 then None
  else nums ← mapM ToNumber args; Some (foldr max2 (Num 0) nums).

(** The counter computation [Math.max(...notes.map(note => note.id), 0) + 1];
    [None] when it throws. *)
Definition next_after (v : json) : option number :=
  args ← map_ids v; m ← Math_max_0 args; Some (add1 m).

(** [loadNotes]: the parsed value is assigned to [notes] first; if the
    counter computation throws, the [catch] leaves [nextId] as it was. *)
Definition loadNotes (f : file_read) (st : state) : state :=
  match f with
  | Parsed loadedNotes =>
      match next_after loadedNotes with
      | Some n => {| notes := loadedNotes; nextId := n |}
      | None => {| notes := loadedNotes; nextId := nextId st |}
      end
  | ReadFailed | ParseFailed => st
  end.

End Coercions.

Definition as_string (j : json) : option string :=
  match j with JStr s => Some s | _ => None end.

(** A parsed object read as a note of the data model; the number in [id] is
    an integer that a double holds. *)
Definition decode_note (j : json) : option Note :=
  match j with
  | JObj o =>
      match prop "id" o, prop "title" o, prop "content" o,
            prop "tags" o, prop "createdAt" o, prop "updatedAt" o with
      | Some (JNum i), Some (JStr t), Some (JStr c),
        Some (JArr tg), Some (JStr ca), Some (JStr ua) =>
          tg' ← mapM as_string tg;
          Some {| id := i; title := t; content := c; tags := tg';
                  createdAt := ca; updatedAt := ua |}
      | _, _, _, _, _, _ => None
      end
  | _ => None
  end.

(** The start-up state read as a [store]: defined when the collection is an
    array of note objects and the counter is a number. *)
Definition decode (s : state) : option store :=
  match notes s, nextId s with
  | JArr items, Num n =>
      ns ← mapM decode_note items;
      Some (Build_store ns n)
  | _, _ => None
  end.

End Startup.

(** ** Responses, effects and the environment of a request *)

Inductive reply :=
  | RNote (n : Note)
  | RNotes (l : list Note)
  | RError (error : string)
  | REmpty.

(** [res.status(code).json(body)] *)
Record response := {
  status : Z;
  payload : reply
}.

Definition respond (code : Z) (r : reply) : response :=
  {| status := code; payload := r |}.

(** What a handler does to the outside world: a call of [fs.writeFile] on the
    notes file with the serialised collection (and whether it went through),
    and a line on [console.error]. *)
Inductive effect :=
  | WriteFile (data : list Note) (ok : bool)
  | ConsoleError (msg : string).

(** The inputs a handler takes from its environment: the first and second
    reading of the clock as ISO strings, and whether [fs.writeFile] succeeds. *)
Record env := {
  now : string;
  now_again : string;
  write_ok : bool
}.

Definition outcome : Type := store * response * list effect.

Definition store_of (o : outcome) : store := o.1.1.
Definition response_of (o : outcome) : response := o.1.2.
Definition effects_of (o : outcome) : list effect := o.2.

Definition wrote (o : outcome) : Prop :=
  exists data ok, WriteFile data ok ∈ effects_of o.

(** [saveNotes]: one [writeFile] of the whole collection; a rejection is
    caught and logged, and nothing is thrown to the caller. *)
Definition saveNotes (e : env) (st : store) : list effect :=
  WriteFile (notes st) (write_ok e) ::
  (if write_ok e then [] else [ConsoleError "Error saving notes:"]).

(** ** [validateNote] *)

Inductive verdict :=
  | Reject (res : response)
  | Next.

Definition title_message : string :=
  "Title is required and must be a non-empty string".
Definition content_message : string :=
  "Content is required and must be a non-empty string".
Definition tags_array_message : string :=
  "Tags must be an array of strings".
Definition tags_element_message : string :=
  "All tags must be strings".

(** [tag => typeof tag === 'string'] *)
Definition tag_is_string (tag : json) : bool := is_string (Some tag).

(** [v.trim() === ''], evaluated only once [v] is known to be a string. *)
Definition trims_to_empty (v : option json) : bool :=
  match trimmed v with
  | Some t => bool_decide (t = EmptyString)
  | None => false
  end.

(** [tags.every(tag => typeof tag === 'string')], evaluated only once [tags]
    is known to be an array. *)
Definition every_string (v : option json) : bool :=
  match v with
  | Some (JArr items) => forallb tag_is_string items
  | _ => true
  end.

Definition validateNote (body : object) : verdict :=
  let title := prop "title" body in
  let content := prop "content" body in
  let tags := prop "tags" body in
  if negb (truthy title) || negb (is_string title) || trims_to_empty title then
    Reject (respond 400 (RError title_message))
  else if negb (truthy content) || negb (is_string content) || trims_to_empty content then
    Reject (respond 400 (RError content_message))
  else if defined tags && negb (isArray tags) then
    Reject (respond 400 (RError tags_array_message))
  else if truthy tags && negb (every_string tags) then
    Reject (respond 400 (RError tags_element_message))
  else Next.

(** ** Route handlers *)

Definition internal_error : response :=
  respond 500 (RError "Internal server error").
Definition invalid_id : response := respond 400 (RError "Invalid note ID").
Definition not_found : response := respond 404 (RError "Note not found").
Definition route_not_found : response := respond 404 (RError "Route not found").

(** [const { title, content, tags = [] } = req.body]: the default applies to
    an [undefined] property only. *)
Definition tags_or_default (body : object) : option json :=
  match prop "tags" body with
  | None => Some (JArr [])
  | Some v => Some v
  end.

(** [note.id === id] *)
Definition has_id (id' : number) (note : Note) : Prop :=
  strict_eq (Num (id note)) id' = true.

#[global] Instance has_id_dec id' note : Decision (has_id id' note).
Proof. unfold has_id. apply _. Defined.

(** [notes.findIndex(note => note.id === id)], with the element found;
    [None] is the source's [-1]. *)
Definition findIndex (id' : number) (l : list Note) : option (nat * Note) :=
  list_find (has_id id') l.

(** The handler of [POST /notes], after [validateNote].  [nextId++] is the
    first thing evaluated; a TypeError in the object literal is caught by the
    handler's [try]/[catch].  The increment is that of [Z], which is the
    program's as long as the counter is below 2^53 in magnitude; at 2^53 the
    program's counter stays where it is. *)
Definition create (body : object) (e : env) (st : store) : outcome :=
  let id0 := nextId st in
  let st1 := {| notes := notes st; nextId := nextId st + 1 |} in
  match trimmed (prop "title" body), trimmed (prop "content" body),
        trimmed_all (tags_or_default body) with
  | Some t, Some c, Some tg =>
      let newNote := {| id := id0; title := t; content := c; tags := tg;
                        createdAt := now e; updatedAt := now_again e |} in
      let st2 := {| notes := notes st1 ++ [newNote]; nextId := nextId st1 |} in
      (st2, respond 201 (RNote newNote), saveNotes e st2)
  | _, _, _ => (st1, internal_error, [])
  end.

(** The parameters of the query string as [req.query] gives them: a string,
    or, for a repeated or bracketed parameter, an array or an object, which
    has no [toLowerCase]. *)
Inductive qparam :=
  | QStr (s : string)
  | QOther.

#[global] Instance qparam_eq_dec : EqDecision qparam.
Proof. solve_decision. Defined.

(** [if (p)] on a query parameter: the parameter when it is truthy; an
    absent parameter and the empty string are not. *)
Definition truthy_param (p : option qparam) : option qparam :=
  match p with
  | Some (QStr s) => if bool_decide (s = EmptyString) then None else p
  | Some QOther => p
  | None => None
  end.

(** [note.tags.some(noteTag => noteTag.toLowerCase().includes(tag.toLowerCase()))];
    [None] is the TypeError of calling [tag.toLowerCase] on a non-string, which
    happens at the first tag looked at. *)
Definition tag_filter (tag : qparam) (note : Note) : option bool :=
  match tag with
  | QStr t =>
      Some (existsb (fun noteTag =>
              JsString.includes (JsString.toLowerCase noteTag) (JsString.toLowerCase t))
            (tags note))
  | QOther => match tags note with [] => Some false | _ :: _ => None end
  end.

Definition search_filter (searchTerm : string) (note : Note) : bool :=
  JsString.includes (JsString.toLowerCase (title note)) searchTerm ||
  JsString.includes (JsString.toLowerCase (content note)) searchTerm.

(** [l.filter(p)] for a callback that may throw. *)
Fixpoint filter_with (p : Note -> option bool) (l : list Note) : option (list Note) :=
  match l with
  | [] => Some []
  | x :: l' =>
      b ← p x; r ← filter_with p l';
      Some (if b : bool then x :: r else r)
  end.

(** The handler of [GET /notes].  [filteredNotes] is [None] once a callback
    has thrown; the handler's [catch] then answers 500. *)
Definition list_notes (tag q : option qparam) (st : store) : response :=
  let filteredNotes := Some (notes st) in
  let filteredNotes :=
    match truthy_param tag with
    | Some tag => l ← filteredNotes; filter_with (tag_filter tag) l
    | None => filteredNotes
    end in
  let filteredNotes :=
    match truthy_param q with
    | Some (QStr q) =>
        let searchTerm := JsString.toLowerCase q in
        l ← filteredNotes; Some (List.filter (search_filter searchTerm) l)
    | Some QOther => None
    | None => filteredNotes
    end in
  match filteredNotes with
  | Some l => respond 200 (RNotes l)
  | None => internal_error
  end.

(** [notes.find(note => note.id === id)] *)
Definition find (id' : number) (l : list Note) : option Note :=
  snd <$> list_find (has_id id') l.

(** The handler of [GET /notes/:id]. *)
Definition get_note (param : string) (st : store) : response :=
  let id' := JsNumber.parseInt param in
  if isNaN id' then invalid_id
  else
    match find id' (notes st) with
    | None => not_found
    | Some note => respond 200 (RNote note)
    end.

(** The handler of [PUT /notes/:id], after [validateNote].  The response
    reads [notes[noteIndex]] back after the save. *)
Definition update (param : string) (body : object) (e : env) (st : store) : outcome :=
  let id' := JsNumber.parseInt param in
  if isNaN id' then (st, invalid_id, [])
  else
    match findIndex id' (notes st) with
    | None => (st, not_found, [])
    | Some (noteIndex, old) =>
        match trimmed (prop "title" body), trimmed (prop "content" body),
              trimmed_all (tags_or_default body) with
        | Some t, Some c, Some tg =>
            let updated := {| id := id old; title := t; content := c; tags := tg;
                              createdAt := createdAt old; updatedAt := now e |} in
            let st' := {| notes := <[noteIndex := updated]> (notes st);
                          nextId := nextId st |} in
            (st',
             respond 200 (match notes st' !! noteIndex with
                          | Some note => RNote note
                          | None => REmpty
                          end),
             saveNotes e st')
        | _, _, _ => (st, internal_error, [])
        end
    end.

(** The handler of [DELETE /notes/:id]. *)
Definition remove (param : string) (e : env) (st : store) : outcome :=
  let id' := JsNumber.parseInt param in
  if isNaN id' then (st, invalid_id, [])
  else
    match findIndex id' (notes st) with
    | None => (st, not_found, [])
    | Some (noteIndex, _) =>
        let st' := {| notes := delete noteIndex (notes st); nextId := nextId st |} in
        (st', respond 204 REmpty, saveNotes e st')
    end.

(** ** The routes *)

Inductive request :=
  | POST_notes (body : object)
  | GET_notes (tag q : option qparam)
  | GET_note (param : string)
  | PUT_note (param : string) (body : object)
  | DELETE_note (param : string)
  | OTHER.

(** [app.post('/notes', validateNote, ...)] and the others: the middleware
    runs first and the handler only after [next()]. *)
Definition handle (r : request) (e : env) (st : store) : outcome :=
  match r with
  | POST_notes body =>
      match validateNote body with
      | Reject res => (st, res, [])
      | Next => create body e st
      end
  | GET_notes tag q => (st, list_notes tag q st, [])
  | GET_note param => (st, get_note param st, [])
  | PUT_note param body =>
      match validateNote body with
      | Reject res => (st, res, [])
      | Next => update param body e st
      end
  | DELETE_note param => remove param e st
  | OTHER => (st, route_not_found, [])
  end.

(** ** Runs of the service *)

(** The id a response hands out: that of the note in a 201. *)
Definition assigned (res : response) : list Z :=
  if status res =? 201 then
    match payload res with
    | RNote n => [id n]
    | _ => []
    end
  else [].

(** Serving a sequence of requests from [st]; [hist] collects, oldest first,
    the ids assigned so far. *)
Fixpoint serve (reqs : list (request * env)) (st : store) (hist : list Z) : store * list Z :=
  match reqs with
  | [] => (st, hist)
  | (r, e) :: reqs' =>
      let o := handle r e st in
      serve reqs' (store_of o) (hist ++ assigned (response_of o))
  end.


(** ** The notes file, written and read back *)

(** A note object as a JSON value: what [JSON.stringify] writes for it and
    [JSON.parse] reads back, with the keys of the object literal in the
    handlers ([id], [title], [content], [tags], [createdAt], [updatedAt]). *)
Definition encode_note (note : Note) : json :=
  JObj [("id", JNum (id note)); ("title", JStr (title note));
        ("content", JStr (content note)); ("tags", JArr (JStr <$> tags note));
        ("createdAt", JStr (createdAt note)); ("updatedAt", JStr (updatedAt note))].

(** [fs.readFile] followed by [JSON.parse] on a file that holds what a
    successful [saveNotes] wrote for the collection [data]. *)
Definition read_back (data : list Note) : Startup.file_read :=
  Startup.Parsed (JArr (encode_note <$> data)).

(** ** The global error handler *)

(** [app.use((error, req, res, next) => ...)]: the error is logged and
    answered 500; the body carries the error's own message unless
    [process.env.NODE_ENV] is ['production'] ([None]: the variable is not
    set). *)
Definition error_handler (NODE_ENV : option string) (message : string)
    : response * list effect :=
  (respond 500 (RError (if bool_decide (NODE_ENV = Some "production")
                        then "Internal server error" else message)),
   [ConsoleError "Unhandled error:"]).

(** ** The middleware in front of the routes *)

(** What becomes of a request that reaches the application, before a route
    sees it.  [cors()] answers an OPTIONS request itself, with 204 and no
    body.  [express.json()]
    or the router may fail on the request (a body that is not JSON or is too
    large, a path parameter that cannot be decoded), and [validateNote] throws
    on a POST or a PUT whose [req.body] is [undefined]: the error goes, with
    its message, to the global error handler.  Any other request is
    dispatched to a route, a HEAD request to the route of the GET (its answer
    is then sent without the body). *)
Inductive incoming :=
  | Preflight
  | Failed (message : string)
  | Dispatched (r : request).

(** The application of [server.js]: the middleware, then the routes. *)
Definition app (NODE_ENV : option string) (i : incoming) (e : env) (st : store) : outcome :=
  match i with
  | Preflight => (st, respond 204 REmpty, [])
  | Failed message =>
      (st, (error_handler NODE_ENV message).1, (error_handler NODE_ENV message).2)
  | Dispatched r => handle r e st
  end.

(** ** The second copy of the program *)

(** [part_000] has the functions of [server.js] with the same bodies, except
    that the handlers of GET, PUT and DELETE on [/notes/:id] have no
    [try]/[catch]: what they throw goes to the framework, which hands it to
    the global error handler.  Its last route is written for Express 5, where
    [req.body] is [undefined] unless [express.json()] has parsed a body. *)
Module Part000.

(** A request as the routes of [part_000] see it; the body of a POST or a PUT
    is [None] when [req.body] is [undefined]. *)
Inductive req :=
  | Post (body : option object)
  | List (tag q : option qparam)
  | Get (param : string)
  | Put (param : string) (body : option object)
  | Delete (param : string)
  | Other.

(** A request of [server.js], whose body is always an object, as a request of
    [part_000]. *)
Definition parsed (r : request) : req :=
  match r with
  | POST_notes body => Post (Some body)
  | GET_notes tag q => List tag q
  | GET_note param => Get param
  | PUT_note param body => Put param (Some body)
  | DELETE_note param => Delete param
  | OTHER => Other
  end.

(** What a handler without [try]/[catch] comes to: a response, or an
    exception, thrown with the store as it then is. *)
Inductive result :=
  | Done (o : outcome)
  | Thrown (st : store).

(** The handler of [GET /notes/:id]: no call in it throws. *)
Definition get_note (param : string) (st : store) : result :=
  let id' := JsNumber.parseInt param in
  if isNaN id' then Done (st, invalid_id, [])
  else
    match find id' (notes st) with
    | None => Done (st, not_found, [])
    | Some note => Done (st, respond 200 (RNote note), [])
    end.

(** The handler of [PUT /notes/:id]: a TypeError in the object literal is
    thrown before [notes[idx]] is assigned. *)
Definition update (param : string) (body : object) (e : env) (st : store) : result :=
  let id' := JsNumber.parseInt param in
  if isNaN id' then Done (st, invalid_id, [])
  else
    match findIndex id' (notes st) with
    | None => Done (st, not_found, [])
    | Some (idx, old) =>
        match trimmed (prop "title" body), trimmed (prop "content" body),
              trimmed_all (tags_or_default body) with
        | Some t, Some c, Some tg =>
            let updated := {| id := id old; title := t; content := c; tags := tg;
                              createdAt := createdAt old; updatedAt := now e |} in
            let st' := {| notes := <[idx := updated]> (notes st);
                          nextId := nextId st |} in
            Done (st',
                  respond 200 (match notes st' !! idx with
                               | Some note => RNote note
                               | None => REmpty
                               end),
                  saveNotes e st')
        | _, _, _ => Thrown st
        end
    end.

(** The handler of [DELETE /notes/:id]. *)
Definition remove (param : string) (e : env) (st : store) : result :=
  let id' := JsNumber.parseInt param in
  if isNaN id' then Done (st, invalid_id, [])
  else
    match findIndex id' (notes st) with
    | None => Done (st, not_found, [])
    | Some (idx, _) =>
        let st' := {| notes := delete idx (notes st); nextId := nextId st |} in
        Done (st', respond 204 REmpty, saveNotes e st')
    end.

(** The routes.  [validateNote] runs first on a POST and on a PUT and has no
    [try]/[catch] either: destructuring an [undefined] body throws.  POST
    /notes and GET /notes keep their [try]/[catch] and are the handlers of
    [server.js]. *)
Definition route (r : req) (e : env) (st : store) : result :=
  match r with
  | Post None => Thrown st
  | Post (Some body) =>
      match validateNote body with
      | Reject res => Done (st, res, [])
      | Next => Done (create body e st)
      end
  | List tag q => Done (st, list_notes tag q st, [])
  | Get param => get_note param st
  | Put _ None => Thrown st
  | Put param (Some body) =>
      match validateNote body with
      | Reject res => Done (st, res, [])
      | Next => update param body e st
      end
  | Delete param => remove param e st
  | Other => Done (st, route_not_found, [])
  end.

(** The routes with the global error handler behind them: an exception of a
    route, with message [message], is answered by it. *)
Definition handle (NODE_ENV : option string) (message : string)
    (r : req) (e : env) (st : store) : outcome :=
  match route r e st with
  | Done o => o
  | Thrown st' =>
      (st', (error_handler NODE_ENV message).1, (error_handler NODE_ENV message).2)
  end.

End Part000.

(** ** Runs, with their effects *)

(** Serving a sequence of requests from [st]: the store at the end and
    everything the handlers did to the outside world, oldest first. *)
Fixpoint run (reqs : list (request * env)) (st : store) : store * list effect :=
  match reqs with
  | [] => (st, [])
  | (r, e) :: reqs' =>
      let o := handle r e st in
      let rest := run reqs' (store_of o) in
      (rest.1, effects_of o ++ rest.2)
  end.


(* ================================================================= *)
(** * Part II: the vocabulary of the specification *)

(** ** Strings and path parameters *)

(** "[t] is a substring of [s]" *)
Definition substring_of (t s : string) : Prop :=
  exists pre post : string, s = pre +:+ t +:+ post.

(** "[s] is whitespace-only" (the empty string included) *)
Definition whitespace_only (s : string) : Prop :=
  forall c, c ∈ String.list_ascii_of_string s -> JsString.is_whitespace c = true.

(** "[s] is an integer": an optional sign and then decimal digits only, at
    least one. *)
Fixpoint all_decimal (s : string) : bool :=
  match s with
  | EmptyString => true
  | String c s' =>
      (48 <=? JsString.code c) && (JsString.code c <=? 57) && all_decimal s'
  end.

Definition unsigned_integer (s : string) : bool :=
  negb (bool_decide (s = EmptyString)) && all_decimal s.

Definition is_integer_literal (s : string) : bool :=
  match s with
  | String c r =>
      if bool_decide (c = "-"%char) || bool_decide (c = "+"%char)
      then unsigned_integer r
      else unsigned_integer s
  | EmptyString => false
  end.

(** ** Request bodies *)

Definition missing (k : string) (body : object) : Prop :=
  prop k body = None.

Definition not_a_string (k : string) (body : object) : Prop :=
  exists v, prop k body = Some v /\ forall s, v <> JStr s.

Definition blank (k : string) (body : object) : Prop :=
  exists s, prop k body = Some (JStr s) /\ whitespace_only s.

(** "missing, non-string, or whitespace-only-after-trimming" *)
Definition bad_text (k : string) (body : object) : Prop :=
  missing k body \/ not_a_string k body \/ blank k body.

(** "a present [tags] that is not an array" *)
Definition tags_not_array (body : object) : Prop :=
  exists v, prop "tags" body = Some v /\ forall items, v <> JArr items.

(** "a [tags] array containing a non-string element" *)
Definition tags_bad_element (body : object) : Prop :=
  exists items x, prop "tags" body = Some (JArr items) /\ x ∈ items /\
                  forall s, x <> JStr s.

Definition invalid (body : object) : Prop :=
  bad_text "title" body \/ bad_text "content" body \/
  tags_not_array body \/ tags_bad_element body.

(** The message names a field of [body] that fails. *)
Definition names_failing_field (msg : string) (body : object) : Prop :=
  msg = title_message /\ bad_text "title" body \/
  msg = content_message /\ bad_text "content" body \/
  msg = tags_array_message /\ tags_not_array body \/
  msg = tags_element_message /\ tags_bad_element body.

(** The test the middleware applies to [title] and to [content]. *)
Definition text_ok (v : option json) : bool :=
  negb (negb (truthy v) || negb (is_string v) || trims_to_empty v).

(** The text fields and the tag list of a body that passed validation. *)
Definition body_text (k : string) (body : object) : string :=
  match prop k body with Some (JStr s) => s | _ => EmptyString end.

Definition body_tags (body : object) : list string :=
  match prop "tags" body with
  | Some (JArr items) => omap Startup.as_string items
  | _ => []
  end.

(** ** Notes *)

(** The note a valid POST creates in [st]: the counter's value as id, the
    body's text fields and tags, trimmed, and the two readings of the clock. *)
Definition created_note (st : store) (body : object) (e : env) : Note :=
  {| id := nextId st;
     title := JsString.trim (body_text "title" body);
     content := JsString.trim (body_text "content" body);
     tags := JsString.trim <$> body_tags body;
     createdAt := now e;
     updatedAt := now_again e |}.

(** What PUT makes of a note [x]: the text fields and tags of the body,
    trimmed, a fresh [updatedAt], and [x]'s own [id] and [createdAt]. *)
Definition updated_note (x : Note) (body : object) (e : env) : Note :=
  {| id := id x;
     title := JsString.trim (body_text "title" body);
     content := JsString.trim (body_text "content" body);
     tags := JsString.trim <$> body_tags body;
     createdAt := createdAt x;
     updatedAt := now e |}.

(** "[s] case-insensitively contains [t] as a substring" *)
Definition contains_ci (s t : string) : Prop :=
  substring_of (JsString.toLowerCase t) (JsString.toLowerCase s).

(** "having some tag that case-insensitively contains the parameter" *)
Definition tag_match (t : string) (note : Note) : Prop :=
  exists noteTag, noteTag ∈ tags note /\ contains_ci noteTag t.

(** "whose title or content case-insensitively contains the parameter" *)
Definition text_match (q : string) (note : Note) : Prop :=
  contains_ci (title note) q \/ contains_ci (content note) q.

(** ** Integers and doubles *)

(** An integer up to which a double counts without a gap: the arithmetic of
    the counter is exact as long as the counter is one. *)
Definition exact (z : Z) : Prop := Z.abs z <= 2 ^ 53.

(** A safe integer ([Number.isSafeInteger]): its successor is exact too, and
    its decimal form is what [String] prints. *)
Definition safe (z : Z) : Prop := Z.abs z < 2 ^ 53.

(** ** Runs and the environment *)

Definition with_write (ok : bool) (e : env) : env :=
  {| now := now e; now_again := now_again e; write_ok := ok |}.

(** Every id handed out so far is below the counter, and the collection
    holds no other ids. *)
Definition consistent (st : store) (hist : list Z) : Prop :=
  Forall (fun i => i < nextId st) hist /\ ids st ⊆ hist.

(** The largest of a list of ids and 0. *)
Definition max_id (l : list Z) : Z := foldr Z.max 0 l.

(** ** The notes file *)

(** A value that is "an array of objects with numeric [id] fields". *)
Definition has_numeric_id (x : json) : bool :=
  match x with
  | JObj o => match prop "id" o with Some (JNum _) => true | _ => false end
  | _ => false
  end.

Definition array_of_identified (v : json) : bool :=
  match v with
  | JArr items => forallb has_numeric_id items
  | _ => false
  end.

(** An object whose [id] is a number or is not there. *)
Definition id_numeric_or_absent (x : json) : bool :=
  match x with
  | JObj o => match prop "id" o with None | Some (JNum _) => true | _ => false end
  | _ => false
  end.

(** An object with no [id] property. *)
Definition id_absent (x : json) : bool :=
  match x with
  | JObj o => match prop "id" o with None => true | _ => false end
  | _ => false
  end.

(** The [id] of an element as [note => note.id] reads it, and as a number. *)
Definition id_value (x : json) : option json :=
  match x with JObj o => prop "id" o | _ => None end.

Definition id_number (x : json) : number :=
  match id_value x with Some (JNum z) => Num z | _ => NaN end.

(** The numeric ids among the elements, in order. *)
Definition numeric_ids (items : list json) : list Z :=
  omap (fun x => match id_value x with Some (JNum z) => Some z | _ => None end) items.

(** ** Sample data *)

Definition env0 : env := {| now := "2024-01-01T00:00:00.000Z";
                            now_again := "2024-01-01T00:00:00.001Z";
                            write_ok := true |}.

Definition later : env := {| now := "2024-01-02T00:00:00.000Z";
                             now_again := "2024-01-02T00:00:00.000Z";
                             write_ok := true |}.

Definition note1 : Note :=
  {| id := 1; title := "A"; content := "B"; tags := [];
     createdAt := "2023-12-31T00:00:00.000Z"; updatedAt := "2023-12-31T00:00:00.000Z" |}.

Definition note2 : Note :=
  {| id := 2; title := "C"; content := "D"; tags := ["x"];
     createdAt := "2023-12-31T00:00:00.000Z"; updatedAt := "2023-12-31T00:00:00.000Z" |}.

Definition empty_store : store := {| notes := []; nextId := 1 |}.

Definition only_note1 : store := {| notes := [note1]; nextId := 2 |}.

Definition two_notes : store := {| notes := [note1; note2]; nextId := 3 |}.

Definition twice_note1 : store := {| notes := [note1; note1]; nextId := 2 |}.

Definition note1_json : json :=
  JObj [("id", JNum 1); ("title", JStr "A"); ("content", JStr "B"); ("tags", JArr []);
        ("createdAt", JStr "2023-12-31T00:00:00.000Z");
        ("updatedAt", JStr "2023-12-31T00:00:00.000Z")].


Definition body_AB : object := [("title", JStr "A"); ("content", JStr "B")].
Definition body_CD : object := [("title", JStr "C"); ("content", JStr "D")].

Definition body_EF : object :=
  [("title", JStr " E "); ("content", JStr "F"); ("tags", JArr [JStr " t1 "; JStr "t2"])].

Definition delete_then_post : list (request * env) :=
  [(DELETE_note "2", env0); (POST_notes body_AB, env0)].

Definition body_no_tags : object := [("title", JStr "E"); ("content", JStr "F")].

Definition body_bad : object := [("title", JStr "  "); ("content", JNum 3)].

(** Coercions to run [loadNotes] with in the samples; no sample reaches them. *)
Definition S0 : string -> number := fun _ => NaN.
Definition O0 : json -> option number := fun _ => None.

(** A number of arguments to run [loadNotes] with in the samples. *)
Definition A0 : Z := 65536.

(** A second note with the id of [note1], and a collection that holds both. *)
Definition twin : Note :=
  {| id := 1; title := "C"; content := "D"; tags := ["x"];
     createdAt := "2023-12-31T00:00:00.000Z"; updatedAt := "2023-12-31T00:00:00.000Z" |}.

Definition twin_json : json :=
  JObj [("id", JNum 1); ("title", JStr "C"); ("content", JStr "D"); ("tags", JArr [JStr "x"]);
        ("createdAt", JStr "2023-12-31T00:00:00.000Z");
        ("updatedAt", JStr "2023-12-31T00:00:00.000Z")].

Definition with_twin : store := {| notes := [note1; twin]; nextId := 2 |}.





(** ** Further vocabulary *)

(** The data handed to [fs.writeFile] by an effect, if it is a write. *)
Definition written (eff : effect) : option (list Note) :=
  match eff with
  | WriteFile data _ => Some data
  | ConsoleError _ => None
  end.

(** The data of the last write of a trace. *)
Definition last_write (effs : list effect) : option (list Note) :=
  last (omap written effs).

(** The first and the last code unit of a string. *)
Definition first_char (s : string) : option ascii :=
  match s with
  | EmptyString => None
  | String c _ => Some c
  end.

Fixpoint last_char (s : string) : option ascii :=
  match s with
  | EmptyString => None
  | String c r =>
      match r with
      | EmptyString => Some c
      | String _ _ => last_char r
      end
  end.

Definition not_whitespace (c : option ascii) : Prop :=
  match c with
  | Some c => JsString.is_whitespace c = false
  | None => True
  end.

(** "[s] has no white space at either end" *)
Definition tidy (s : string) : Prop :=
  not_whitespace (first_char s) /\ not_whitespace (last_char s).

(** A note as the handlers store it: a title and a content that are not
    empty and have no white space at either end, and tags without white
    space at either end. *)
Definition clean (note : Note) : Prop :=
  title note <> EmptyString /\ tidy (title note) /\
  content note <> EmptyString /\ tidy (content note) /\
  Forall tidy (tags note).

(** The service started again on the file that holds [data]. *)
Definition restarted (S : string -> number) (O : json -> option number) (A : Z)
    (data : list Note) : option store :=
  Startup.decode (Startup.loadNotes S O A (read_back data) Startup.initial).

(** How many notes a request to the application adds to the collection. *)
Definition app_growth (i : incoming) (res : response) : Z :=
  match i with
  | Dispatched _ =>
      if status res =? 201 then 1 else if status res =? 204 then -1 else 0
  | Preflight | Failed _ => 0
  end.



(* ================================================================= *)
(** * Part III: facts about the program *)

Example parseInt_examples :
  JsNumber.parseInt "42" = Num 42 /\ JsNumber.parseInt "  -7xyz" = Num (-7) /\
  JsNumber.parseInt "0x1A" = Num 26 /\ JsNumber.parseInt "abc" = NaN /\
  JsNumber.parseInt "" = NaN /\ JsNumber.parseInt "1.5" = Num 1 /\
  JsNumber.toString 1203 = "1203" /\ JsNumber.toString (-45) = "-45" /\
  JsNumber.toString 0 = "0" /\
  JsString.trim "  a b  " = "a b" /\ JsString.toLowerCase "Hello World" = "hello world" /\
  JsString.includes "formal methods" "mal m" = true.
Proof. repeat split; reflexivity. Qed.

(** ** Strings *)

Section StringFacts.
Import JsString.

Lemma app_nil_l (s : string) : EmptyString +:+ s = s.
Proof. reflexivity. Qed.

Lemma app_cons (c : ascii) (s t : string) : String c s +:+ t = String c (s +:+ t).
Proof. reflexivity. Qed.

Lemma whitespace_only_nil : whitespace_only EmptyString.
Proof. intros c Hc. simpl in Hc. by apply elem_of_nil in Hc. Qed.

Lemma whitespace_only_cons c s :
  whitespace_only (String c s) <-> is_whitespace c = true /\ whitespace_only s.
Proof.
  unfold whitespace_only. simpl. split.
  - intros H. split; [apply H; left|]. intros d Hd. apply H. by right.
  - intros [Hc Hs] d Hd. apply elem_of_cons in Hd as [->|Hd]; auto.
Qed.

Lemma trimStart_empty s : trimStart s = EmptyString <-> whitespace_only s.
Proof.
  induction s as [|c s IH]; simpl.
  - split; [intros _; apply whitespace_only_nil | done].
  - rewrite whitespace_only_cons. destruct (is_whitespace c) eqn:Hc.
    + rewrite IH. tauto.
    + split; [done | intros [? _]; done].
Qed.

Lemma trimEnd_empty s : trimEnd s = EmptyString <-> whitespace_only s.
Proof.
  induction s as [|c s IH]; simpl.
  - split; [intros _; apply whitespace_only_nil | done].
  - rewrite whitespace_only_cons, <- IH.
    destruct (trimEnd s) eqn:Ht, (is_whitespace c) eqn:Hc;
      split; try done; intros [? ?]; done.
Qed.

Lemma whitespace_only_trimStart s : whitespace_only (trimStart s) <-> whitespace_only s.
Proof.
  induction s as [|c s IH]; simpl; [done|].
  destruct (is_whitespace c) eqn:Hc; [|done].
  rewrite IH, whitespace_only_cons. tauto.
Qed.

(** [s.trim() === ''] exactly when [s] is made of white space only. *)
Lemma trim_empty s : trim s = EmptyString <-> whitespace_only s.
Proof. unfold trim. by rewrite trimEnd_empty, whitespace_only_trimStart. Qed.

Lemma startsWith_spec s t :
  startsWith s t = true <-> exists post, s = t +:+ post.
Proof.
  revert s. induction t as [|b t IH]; intros s; simpl.
  - split; [intros _; by exists s | done].
  - destruct s as [|a s]; simpl.
    + split; [done | intros [post H]; by rewrite app_cons in H].
    + rewrite andb_true_iff, bool_decide_eq_true, IH. split.
      * intros [-> [post ->]]. by exists post.
      * intros [post H]. rewrite app_cons in H. injection H as -> ->. eauto.
Qed.

(** [s.includes(t)] decides "[t] is a substring of [s]". *)
Lemma includes_spec s t : includes s t = true <-> substring_of t s.
Proof.
  unfold substring_of. induction s as [|a s IH]; simpl.
  - rewrite orb_false_r, startsWith_spec. split.
    + intros [post H]. by exists EmptyString, post.
    + intros ([|c pre] & post & H).
      * rewrite app_nil_l in H. eauto.
      * by rewrite app_cons in H.
  - rewrite orb_true_iff, startsWith_spec, IH. split.
    + intros [[post H]|(pre & post & H)].
      * by exists EmptyString, post.
      * exists (String a pre), post. by rewrite app_cons, H.
    + intros ([|c pre] & post & H).
      * left. rewrite app_nil_l in H. eauto.
      * right. rewrite app_cons in H. injection H as -> ->. eauto.
Qed.

Lemma includes_empty s : includes s EmptyString = true.
Proof. destruct s; reflexivity. Qed.

End StringFacts.

(** ** [parseInt] *)

(** Case analysis on every integer comparison in sight, then arithmetic. *)
Ltac zcases :=
  repeat match goal with
    | H : context [?a <=? ?b] |- _ => destruct (Z.leb_spec a b)
    | H : context [?a <? ?b] |- _ => destruct (Z.ltb_spec a b)
    | H : context [?a =? ?b] |- _ => destruct (Z.eqb_spec a b)
    | |- context [?a <=? ?b] => destruct (Z.leb_spec a b)
    | |- context [?a <? ?b] => destruct (Z.ltb_spec a b)
    | |- context [?a =? ?b] => destruct (Z.eqb_spec a b)
    end;
  simpl in *; try done; try lia.

Section NumberFacts.
Import JsString JsNumber.

Abbreviation step := (fun acc d : Z => acc * 10 + d).

Lemma digit_char_value d :
  0 <= d < 10 -> digit_value (digit_char d) = Some d /\ code (digit_char d) = 48 + d.
Proof.
  intros Hd.
  assert (d = 0 \/ d = 1 \/ d = 2 \/ d = 3 \/ d = 4 \/
          d = 5 \/ d = 6 \/ d = 7 \/ d = 8 \/ d = 9) as Hc by lia.
  repeat destruct Hc as [-> | Hc]; try subst d; by split.
Qed.

Lemma decimal_char_digit c :
  (48 <=? code c) && (code c <=? 57) = true ->
  digit_value c = Some (code c - 48) /\ is_whitespace c = false /\
  c <> "-"%char /\ c <> "+"%char /\ c <> "x"%char /\ c <> "X"%char.
Proof.
  intros H. unfold digit_value, is_whitespace. rewrite H.
  apply andb_true_iff in H as [H1 H2]. apply Z.leb_le in H1, H2.
  split; [done|]. split; [zcases|].
  repeat split; intros ->; vm_compute in H1, H2; by (apply H1 || apply H2).
Qed.

Lemma digits_decimal_cons c s :
  (48 <=? code c) && (code c <=? 57) = true ->
  digits 10 (String c s) = (code c - 48) :: digits 10 s.
Proof.
  intros H. simpl. destruct (decimal_char_digit c H) as (-> & _).
  apply andb_true_iff in H as [H1 H2]. apply Z.leb_le in H1, H2. zcases.
Qed.

Lemma decimal_all_decimal fuel : forall n rest,
  0 <= n -> all_decimal rest = true -> all_decimal (decimal fuel n rest) = true.
Proof.
  assert (Hstep : forall n rest, 0 <= n -> all_decimal rest = true ->
            all_decimal (String (digit_char (n mod 10)) rest) = true).
  { intros n rest Hn Hrest. simpl. rewrite Hrest, andb_true_r.
    destruct (digit_char_value (n mod 10)) as [_ ->]; [apply Z.mod_pos_bound; lia|].
    pose proof (Z.mod_pos_bound n 10). zcases. }
  induction fuel as [|fuel IH]; intros n rest Hn Hrest; simpl; [by apply Hstep|].
  destruct (n <? 10); [by apply Hstep|].
  apply IH; [apply Z.div_pos; lia | by apply Hstep].
Qed.

Lemma decimal_nonempty fuel : forall n rest, decimal fuel n rest <> EmptyString.
Proof.
  induction fuel as [|fuel IH]; intros n rest; simpl; [done|].
  destruct (n <? 10); [done | apply IH].
Qed.

Lemma decimal_value fuel : forall n rest,
  0 <= n < 2 ^ (Z.of_nat fuel + 1) ->
  exists k, 0 <= k /\ forall a,
    fold_left step (digits 10 (decimal fuel n rest)) a =
    fold_left step (digits 10 rest) (a * 10 ^ k + n).
Proof.
  assert (Hlast : forall n rest, 0 <= n < 10 ->
            exists k, 0 <= k /\ forall a,
              fold_left step (digits 10 (String (digit_char (n mod 10)) rest)) a =
              fold_left step (digits 10 rest) (a * 10 ^ k + n)).
  { intros n rest Hn. exists 1. split; [lia|]. intros a.
    rewrite Z.mod_small by lia.
    destruct (digit_char_value n Hn) as [Hv Hc].
    rewrite digits_decimal_cons by (rewrite Hc; zcases).
    simpl. do 2 f_equal. lia. }
  induction fuel as [|fuel IH]; intros n rest Hn.
  - simpl. apply Hlast. change (2 ^ (Z.of_nat 0 + 1)) with 2 in Hn. lia.
  - simpl decimal. destruct (Z.ltb_spec n 10) as [Hlt|Hge]; [apply Hlast; lia|].
    assert (Hbound : 2 ^ (Z.of_nat (S fuel) + 1) = 2 * 2 ^ (Z.of_nat fuel + 1)).
    { rewrite <- Z.pow_succ_r by lia. f_equal. lia. }
    destruct (IH (n / 10) (String (digit_char (n mod 10)) rest)) as (k & Hk & Heq).
    { split; [apply Z.div_pos; lia|]. apply Z.div_lt_upper_bound; lia. }
    exists (k + 1). split; [lia|]. intros a. rewrite Heq.
    pose proof (Z.mod_pos_bound n 10 ltac:(lia)) as Hm.
    destruct (digit_char_value (n mod 10) Hm) as [Hv Hc].
    rewrite digits_decimal_cons by (rewrite Hc; zcases).
    simpl. f_equal. rewrite Hc, Z.pow_add_r, Z.pow_1_r by lia.
    pose proof (Z.div_mod n 10 ltac:(lia)). lia.
Qed.

(** A non-empty run of decimal digits is read in radix 10, and to its end
    as far as the digits go. *)
Lemma strip_prefix_decimal r :
  all_decimal r = true -> strip_prefix r = (10, r).
Proof.
  destruct r as [|c0 [|c1 r]]; simpl; try done.
  intros H. apply andb_true_iff in H as [H0 H]. apply andb_true_iff in H as [H1 _].
  destruct (decimal_char_digit c1 H1) as (_ & _ & _ & _ & Hx & HX).
  rewrite (bool_decide_eq_false_2 _ Hx), (bool_decide_eq_false_2 _ HX).
  by rewrite andb_false_r.
Qed.

Lemma digits_decimal_nonempty r :
  all_decimal r = true -> r <> EmptyString -> digits 10 r <> [].
Proof.
  destruct r as [|c r]; [done|]. intros H _. simpl in H.
  apply andb_true_iff in H as [H _]. by rewrite digits_decimal_cons.
Qed.

Lemma parseInt_signed sign s r :
  trimStart s = s -> strip_sign s = (sign, r) ->
  all_decimal r = true -> r <> EmptyString ->
  parseInt s = Num (sign * value_of 10 (digits 10 r)).
Proof.
  intros Hs Hsign Hr Hne. unfold parseInt. rewrite Hs, Hsign.
  rewrite strip_prefix_decimal by done.
  pose proof (digits_decimal_nonempty r Hr Hne). by destruct (digits 10 r).
Qed.

Lemma parseInt_decimal s :
  all_decimal s = true -> s <> EmptyString ->
  parseInt s = Num (value_of 10 (digits 10 s)).
Proof.
  intros Hs Hne. rewrite (parseInt_signed 1 s s); try done.
  - f_equal. lia.
  - destruct s as [|c s]; [done|]. simpl in *.
    apply andb_true_iff in Hs as [Hc _].
    by destruct (decimal_char_digit c Hc) as (_ & -> & _).
  - destruct s as [|c s]; [done|]. simpl in *.
    apply andb_true_iff in Hs as [Hc _].
    destruct (decimal_char_digit c Hc) as (_ & _ & Hm & Hp & _).
    by rewrite (bool_decide_eq_false_2 _ Hm), (bool_decide_eq_false_2 _ Hp).
Qed.

Lemma parseInt_minus s :
  all_decimal s = true -> s <> EmptyString ->
  parseInt (String "-" s) = Num (- value_of 10 (digits 10 s)).
Proof.
  intros Hs Hne. by rewrite (parseInt_signed (-1) _ s).
Qed.

Lemma log2_bound n : 0 <= n -> n < 2 ^ (Z.of_nat (Z.to_nat (Z.log2 n)) + 1).
Proof.
  intros Hn. rewrite Z2Nat.id by apply Z.log2_nonneg.
  destruct (decide (n = 0)) as [->|]; [done|].
  replace (Z.log2 n + 1) with (Z.succ (Z.log2 n)) by lia.
  apply Z.log2_spec. lia.
Qed.

(** Printing an integer and parsing it back gives the integer: the path
    [/notes/<id>] a client builds from an id names that id. *)
Lemma parseInt_toString n : parseInt (toString n) = Num n.
Proof.
  unfold toString. destruct (Z.ltb_spec n 0) as [Hneg|Hpos].
  - rewrite parseInt_minus;
      [| apply decimal_all_decimal; [lia|done] | apply decimal_nonempty].
    destruct (decimal_value (Z.to_nat (Z.log2 (- n))) (- n) EmptyString) as (k & _ & H).
    { split; [lia | apply log2_bound; lia]. }
    unfold value_of. rewrite H. simpl. f_equal. lia.
  - rewrite parseInt_decimal;
      [| apply decimal_all_decimal; [lia|done] | apply decimal_nonempty].
    destruct (decimal_value (Z.to_nat (Z.log2 n)) n EmptyString) as (k & _ & H).
    { split; [lia | apply log2_bound; lia]. }
    unfold value_of. rewrite H. simpl. f_equal.
Qed.

(** An integer literal parses to a number. *)
Lemma parseInt_integer_literal s :
  is_integer_literal s = true -> isNaN (parseInt s) = false.
Proof.
  destruct s as [|c r]; [done|]. cbn [is_integer_literal].
  assert (unsigned_integer (String c r) = true -> is_whitespace c = false) as Hws.
  { intros [_ Hall]%andb_true_iff. cbn in Hall.
    apply andb_true_iff in Hall as [Hc _].
    by destruct (decimal_char_digit c Hc) as (_ & -> & _). }
  assert (forall sign r', strip_sign (String c r) = (sign, r') ->
            trimStart (String c r) = String c r ->
            unsigned_integer r' = true ->
            isNaN (parseInt (String c r)) = false) as Hread.
  { intros sign r' Hs Ht [Hne Hr]%andb_true_iff.
    apply negb_true_iff, bool_decide_eq_false in Hne.
    by rewrite (parseInt_signed sign _ r'). }
  cbn [strip_sign] in Hread.
  destruct (bool_decide (c = "-"%char)) eqn:Hm.
  { apply bool_decide_eq_true in Hm as ->. intros H. by apply (Hread (-1) r). }
  destruct (bool_decide (c = "+"%char)) eqn:Hp.
  { apply bool_decide_eq_true in Hp as ->. intros H. by apply (Hread 1 r). }
  cbn [orb]. intros H. apply (Hread 1 (String c r)); [done| |done].
  cbn. by rewrite (Hws H).
Qed.

End NumberFacts.

(** ** [validateNote] *)

Section Validation.
Import JsString.

Lemma trims_to_empty_spec s :
  trims_to_empty (Some (JStr s)) = true <-> whitespace_only s.
Proof. unfold trims_to_empty. simpl. by rewrite bool_decide_eq_true, trim_empty. Qed.

Lemma text_ok_spec k body :
  text_ok (prop k body) = false <-> bad_text k body.
Proof.
  unfold text_ok, bad_text, missing, not_a_string, blank.
  destruct (prop k body) as [v|] eqn:Hv.
  2:{ split; [by left | done]. }
  destruct v as [|b|z|s|items|fields];
    try (split; [intros _; right; left; eexists; split; [done|]; by intros ?
                | intros _; simpl; by rewrite ?orb_true_r]).
  rewrite negb_false_iff. simpl. rewrite orb_false_r, orb_true_iff.
  rewrite trims_to_empty_spec, negb_true_iff, negb_false_iff, bool_decide_eq_true.
  split.
  - intros [->|Hw]; right; right.
    + exists EmptyString. split; [done | apply whitespace_only_nil].
    + by exists s.
  - intros [[=]|[(v & [= <-] & Hv')|(s' & [= <-] & Hw)]]; [|by right].
    by destruct (Hv' s).
Qed.

Lemma text_ok_true k body :
  text_ok (prop k body) = true ->
  exists s, prop k body = Some (JStr s) /\ trim s <> EmptyString /\
            trimmed (prop k body) = Some (trim s).
Proof.
  unfold text_ok. destruct (prop k body) as [[|b|z|s|items|fields]|];
    simpl; rewrite ?orb_true_r; try done.
  unfold trims_to_empty. simpl. intros H. exists s. split; [done|].
  split; [|done]. intros Ht. by rewrite Ht, orb_true_r in H.
Qed.

Lemma every_string_false items :
  forallb tag_is_string items = false <->
  exists x, x ∈ items /\ forall s, x <> JStr s.
Proof.
  induction items as [|x items IH]; simpl.
  - split; [done | intros (x & Hx & _); by apply elem_of_nil in Hx].
  - rewrite andb_false_iff, IH. split.
    + intros [Hx|(y & Hy & Hs)].
      * exists x. split; [left|]. intros s ->. done.
      * exists y. split; [by right | done].
    + intros (y & Hy & Hs). apply elem_of_cons in Hy as [->|Hy].
      * left. destruct x as [| | |s'| |]; try done. by destruct (Hs s').
      * right. eauto.
Qed.

Lemma every_string_true items :
  forallb tag_is_string items = true ->
  items = JStr <$> omap Startup.as_string items /\
  trimmed_all (Some (JArr items)) = Some (trim <$> omap Startup.as_string items).
Proof.
  unfold trimmed_all. intros Hall.
  assert (items = JStr <$> omap Startup.as_string items) as Hitems.
  { induction items as [|x items IH]; [done|].
    cbn [forallb] in Hall. apply andb_true_iff in Hall as [Hx Hi].
    destruct x; try done. csimpl. f_equal. by apply IH. }
  split; [done|]. apply mapM_Some. rewrite Hitems at 1.
  apply Forall2_fmap, Forall_Forall2_diag, Forall_forall. by intros s _.
Qed.

Lemma validateNote_unfold body :
  validateNote body =
  if text_ok (prop "title" body) then
    if text_ok (prop "content" body) then
      if defined (prop "tags" body) && negb (isArray (prop "tags" body)) then
        Reject (respond 400 (RError tags_array_message))
      else if truthy (prop "tags" body) && negb (every_string (prop "tags" body)) then
        Reject (respond 400 (RError tags_element_message))
      else Next
    else Reject (respond 400 (RError content_message))
  else Reject (respond 400 (RError title_message)).
Proof.
  unfold validateNote, text_ok.
  by do 2 destruct (negb _ || negb _ || trims_to_empty _).
Qed.

(** What the middleware decides, in the words of the specification. *)
Lemma validateNote_rejects body res :
  validateNote body = Reject res ->
  exists msg, res = respond 400 (RError msg) /\ names_failing_field msg body.
Proof.
  rewrite validateNote_unfold. unfold names_failing_field.
  destruct (text_ok (prop "title" body)) eqn:Ht; simpl.
  2:{ intros [= <-]. eexists. split; [done|]. left. split; [done|].
      by apply text_ok_spec. }
  destruct (text_ok (prop "content" body)) eqn:Hc; simpl.
  2:{ intros [= <-]. eexists. split; [done|]. right; left. split; [done|].
      by apply text_ok_spec. }
  destruct (prop "tags" body) as [v|] eqn:Hv; simpl; [|done].
  destruct v as [|b|z|s|items|fields]; simpl;
    try (intros [= <-]; eexists; split; [done|]; right; right; left;
         split; [done|]; eexists; split; [done|]; by intros ?).
  destruct (forallb _ items) eqn:Hall; simpl; [done|].
  intros [= <-]. eexists. split; [done|]. right; right; right. split; [done|].
  apply every_string_false in Hall as (x & Hx & Hs). by exists items, x.
Qed.

Lemma validateNote_invalid body : invalid body -> validateNote body <> Next.
Proof.
  rewrite validateNote_unfold. unfold invalid.
  intros [Ht|[Hc|Htags]].
  - apply text_ok_spec in Ht. by rewrite Ht.
  - apply text_ok_spec in Hc. rewrite Hc. by destruct (text_ok (prop "title" body)).
  - destruct (text_ok (prop "title" body)); [|done].
    destruct (text_ok (prop "content" body)); [|done].
    destruct Htags as [(v & -> & Hv)|(items & x & -> & Hx & Hs)].
    + destruct v; simpl; try done. by destruct (Hv items).
    + simpl. assert (forallb tag_is_string items = false) as ->; [|done].
      apply every_string_false. eauto.
Qed.

(** A body that passes carries two non-blank strings and, when it has tags,
    an array of strings; the handlers' trimming then succeeds. *)
Lemma validateNote_passes body :
  validateNote body = Next ->
  prop "title" body = Some (JStr (body_text "title" body)) /\
  prop "content" body = Some (JStr (body_text "content" body)) /\
  trim (body_text "title" body) <> EmptyString /\
  trim (body_text "content" body) <> EmptyString /\
  (prop "tags" body = None \/ prop "tags" body = Some (JArr (JStr <$> body_tags body))) /\
  trimmed (prop "title" body) = Some (trim (body_text "title" body)) /\
  trimmed (prop "content" body) = Some (trim (body_text "content" body)) /\
  trimmed_all (tags_or_default body) = Some (trim <$> body_tags body).
Proof.
  rewrite validateNote_unfold. unfold body_text, body_tags, tags_or_default.
  destruct (text_ok (prop "title" body)) eqn:Ht; simpl; [|done].
  destruct (text_ok (prop "content" body)) eqn:Hc; simpl; [|done].
  apply text_ok_true in Ht as (t & -> & Ht & _).
  apply text_ok_true in Hc as (c & -> & Hc & _).
  destruct (prop "tags" body) as [v|] eqn:Hv; simpl.
  2:{ intros _. repeat split; try done. by left. }
  destruct v as [|b|z|s|items|fields]; simpl; try done.
  destruct (forallb _ items) eqn:Hall; simpl; [|done].
  intros _. apply every_string_true in Hall as [H1 H2].
  repeat split; try done. right. by rewrite <- H1.
Qed.

End Validation.

(** ** Looking a note up by id *)

Section Lookup.

Lemma has_id_spec n note : has_id (Num n) note <-> id note = n.
Proof. unfold has_id. simpl. apply Z.eqb_eq. Qed.

(** [findIndex] returns the first position whose note has the id. *)
Lemma findIndex_Some n l i x :
  findIndex (Num n) l = Some (i, x) <->
  l !! i = Some x /\ id x = n /\ forall j y, l !! j = Some y -> (j < i)%nat -> id y <> n.
Proof.
  unfold findIndex. rewrite list_find_Some. rewrite has_id_spec.
  split; intros (H1 & H2 & H3); (split_and!; [done..|]);
    intros j y Hj Hlt; specialize (H3 j y Hj Hlt); by rewrite has_id_spec in *.
Qed.

Lemma findIndex_None n l : findIndex (Num n) l = None <-> n ∉ map id l.
Proof.
  unfold findIndex. rewrite list_find_None, Forall_forall. split.
  - intros H (y & -> & Hy)%list_elem_of_fmap. by apply (H y Hy), has_id_spec.
  - intros H y Hy Hid%has_id_spec. apply H, list_elem_of_fmap. eauto.
Qed.

Lemma findIndex_present n l :
  n ∈ map id l -> exists i x, findIndex (Num n) l = Some (i, x).
Proof.
  intros Hin. destruct (findIndex (Num n) l) as [[i x]|] eqn:Hf; [eauto|].
  by apply findIndex_None in Hf.
Qed.

(** With pairwise distinct ids a note is found at the one position it has. *)
Lemma NoDup_ids_same_position (l : list Note) i j x y :
  NoDup (map id l) -> l !! i = Some x -> l !! j = Some y -> id x = id y -> i = j.
Proof.
  intros Hnd Hi Hj Hid. apply (NoDup_lookup (map id l) i j (id x)); [done|..].
  - change (map id l) with (id <$> l). by rewrite list_lookup_fmap, Hi.
  - change (map id l) with (id <$> l). by rewrite list_lookup_fmap, Hj, Hid.
Qed.

Lemma findIndex_unique n l x :
  NoDup (map id l) -> x ∈ l -> id x = n ->
  exists i, findIndex (Num n) l = Some (i, x) /\ l !! i = Some x.
Proof.
  intros Hnd Hx Hid.
  destruct (findIndex_present n l) as (i & y & Hf).
  { rewrite <- Hid. apply list_elem_of_fmap. eauto. }
  pose proof Hf as (Hi & Hy & _)%findIndex_Some.
  apply list_elem_of_lookup in Hx as [j Hj].
  assert (i = j) as -> by (eapply NoDup_ids_same_position; [done..|congruence]).
  assert (y = x) as -> by congruence. eauto.
Qed.

Lemma findIndex_appended st note :
  Forall (fun i => i < id note) (ids st) ->
  findIndex (Num (id note)) (notes st ++ [note]) = Some (length (notes st), note).
Proof.
  intros Hlt. apply findIndex_Some. split_and!; [|done|].
  - by apply list_lookup_middle.
  - intros j y Hj Hlen. rewrite lookup_app_l in Hj by done.
    rewrite Forall_forall in Hlt. assert (id y < id note); [|lia].
    apply Hlt. unfold ids. apply list_elem_of_fmap. exists y.
    split; [done|]. by eapply list_elem_of_lookup_2.
Qed.

Lemma get_note_found param n st i x :
  JsNumber.parseInt param = Num n -> findIndex (Num n) (notes st) = Some (i, x) ->
  get_note param st = respond 200 (RNote x).
Proof.
  intros Hp Hf. unfold get_note, find. unfold findIndex in Hf. by rewrite Hp, Hf.
Qed.

Lemma get_note_absent param n st :
  JsNumber.parseInt param = Num n -> n ∉ ids st -> get_note param st = not_found.
Proof.
  intros Hp Hn%findIndex_None. unfold get_note, find. unfold findIndex in Hn.
  by rewrite Hp, Hn.
Qed.

End Lookup.

(** ** The three mutations *)

Lemma create_valid body e st :
  validateNote body = Next ->
  handle (POST_notes body) e st =
    ({| notes := notes st ++ [created_note st body e]; nextId := nextId st + 1 |},
     respond 201 (RNote (created_note st body e)),
     saveNotes e {| notes := notes st ++ [created_note st body e];
                    nextId := nextId st + 1 |}).
Proof.
  intros Hv. cbn [handle]. rewrite Hv. unfold create.
  by destruct (validateNote_passes body Hv) as (_ & _ & _ & _ & _ & -> & -> & ->).
Qed.

Lemma update_found param n body e st i x :
  JsNumber.parseInt param = Num n -> validateNote body = Next ->
  findIndex (Num n) (notes st) = Some (i, x) ->
  handle (PUT_note param body) e st =
    ({| notes := <[i := updated_note x body e]> (notes st); nextId := nextId st |},
     respond 200 (RNote (updated_note x body e)),
     saveNotes e {| notes := <[i := updated_note x body e]> (notes st);
                    nextId := nextId st |}).
Proof.
  intros Hp Hv Hf. cbn [handle]. rewrite Hv. unfold update. rewrite Hp, Hf.
  destruct (validateNote_passes body Hv) as (_ & _ & _ & _ & _ & -> & -> & ->).
  apply findIndex_Some in Hf as (Hi%lookup_lt_Some & _).
  cbn. by rewrite list_lookup_insert_eq.
Qed.

Lemma update_absent param n body e st :
  JsNumber.parseInt param = Num n -> validateNote body = Next ->
  n ∉ ids st ->
  handle (PUT_note param body) e st = (st, not_found, []).
Proof.
  intros Hp Hv Hn. cbn [handle]. rewrite Hv. unfold update. rewrite Hp.
  by apply findIndex_None in Hn as ->.
Qed.

Lemma remove_found param n e st i x :
  JsNumber.parseInt param = Num n ->
  findIndex (Num n) (notes st) = Some (i, x) ->
  handle (DELETE_note param) e st =
    ({| notes := delete i (notes st); nextId := nextId st |},
     respond 204 REmpty,
     saveNotes e {| notes := delete i (notes st); nextId := nextId st |}).
Proof. intros Hp Hf. cbn [handle]. unfold remove. by rewrite Hp, Hf. Qed.

Lemma remove_absent param n e st :
  JsNumber.parseInt param = Num n -> n ∉ ids st ->
  handle (DELETE_note param) e st = (st, not_found, []).
Proof.
  intros Hp Hn. cbn [handle]. unfold remove. rewrite Hp.
  by apply findIndex_None in Hn as ->.
Qed.

(** In a list without repetition, deleting a position removes its element. *)
Lemma NoDup_delete_absent {A} (l : list A) i x :
  NoDup l -> l !! i = Some x -> x ∉ delete i l.
Proof.
  intros Hnd Hi. rewrite delete_take_drop.
  rewrite <- (take_drop_middle l i x Hi) in Hnd.
  apply NoDup_app in Hnd as (_ & Hout & Hnd'). apply NoDup_cons in Hnd' as [Hx _].
  intros [Hin|Hin]%elem_of_app; [|done].
  apply (Hout x Hin). left.
Qed.

(** ** Listing and filtering *)

Section Filters.
Import JsString.

#[global] Instance substring_of_dec t s : Decision (substring_of t s).
Proof.
  refine (cast_if (decide (includes s t = true))); by rewrite <- includes_spec.
Defined.

#[global] Instance contains_ci_dec s t : Decision (contains_ci s t).
Proof. unfold contains_ci. apply _. Defined.

Lemma tag_match_Exists t note :
  tag_match t note <-> Exists (fun noteTag => contains_ci noteTag t) (tags note).
Proof. unfold tag_match. rewrite Exists_exists. done. Qed.

#[global] Instance tag_match_dec t note : Decision (tag_match t note).
Proof.
  refine (cast_if (decide (Exists (fun noteTag => contains_ci noteTag t) (tags note))));
    by rewrite tag_match_Exists.
Defined.

#[global] Instance text_match_dec q note : Decision (text_match q note).
Proof. unfold text_match. apply _. Defined.

Lemma tag_filter_spec t note :
  exists b, tag_filter (QStr t) note = Some b /\ (b = true <-> tag_match t note).
Proof.
  eexists. split; [reflexivity|].
  rewrite tag_match_Exists. induction (tags note) as [|noteTag l IH]; simpl.
  - split; [done | by intros ?%Exists_nil].
  - rewrite orb_true_iff, Exists_cons, IH. unfold contains_ci.
    by rewrite includes_spec.
Qed.

Lemma search_filter_spec q note :
  search_filter (toLowerCase q) note = true <-> text_match q note.
Proof.
  unfold search_filter, text_match, contains_ci.
  by rewrite orb_true_iff, !includes_spec.
Qed.

Lemma filter_with_tag t l :
  filter_with (tag_filter (QStr t)) l = Some (filter (tag_match t) l).
Proof.
  induction l as [|x l IH]; [done|].
  cbn [filter_with]. rewrite IH, filter_cons.
  destruct (tag_filter_spec t x) as (b & -> & Hb). cbn.
  destruct (decide (tag_match t x)) as [Hy|Hn].
  - by apply Hb in Hy as ->.
  - destruct b; [by destruct Hn; apply Hb | done].
Qed.

Lemma filter_search q (l : list Note) :
  List.filter (search_filter (toLowerCase q)) l = filter (text_match q) l.
Proof.
  induction l as [|x l IH]; [done|].
  cbn [List.filter]. rewrite IH, filter_cons.
  destruct (decide (text_match q x)) as [Hy|Hn].
  - by apply search_filter_spec in Hy as ->.
  - destruct (search_filter _ x) eqn:Hs; [by apply search_filter_spec in Hs | done].
Qed.

Lemma text_match_empty note : text_match EmptyString note.
Proof. left. by exists EmptyString, (toLowerCase (title note)). Qed.

Lemma filter_all {A} (P : A -> Prop) `{forall x, Decision (P x)} (l : list A) :
  (forall x, P x) -> filter P l = l.
Proof.
  intros HP. induction l as [|x l IH]; [done|].
  by rewrite filter_cons, decide_True, IH.
Qed.

Lemma filter_with_sub p l r :
  filter_with p l = Some r -> forall y, y ∈ r -> y ∈ l.
Proof.
  revert r. induction l as [|x l IH]; intros r; cbn [filter_with].
  - by intros [= <-].
  - destruct (p x) as [b|]; [|done]. cbn.
    destruct (filter_with p l) as [r'|]; [|done]. cbn.
    intros [= <-] y Hy. destruct b.
    + apply elem_of_cons in Hy as [->|Hy]; [left | right; by apply (IH r')].
    + right. by apply (IH r').
Qed.

(** Whatever the parameters, GET /notes lists notes of the collection only. *)
Lemma list_notes_sub tag q st l :
  list_notes tag q st = respond 200 (RNotes l) -> forall y, y ∈ l -> y ∈ notes st.
Proof.
  unfold list_notes.
  set (byTag := match truthy_param tag with Some _ => _ | None => _ end).
  assert (forall r, byTag = Some r -> forall y, y ∈ r -> y ∈ notes st) as HbyTag.
  { subst byTag. destruct (truthy_param tag) as [t|]; cbn; [|by intros r [= <-]].
    intros r. apply filter_with_sub. }
  destruct (truthy_param q) as [[s|]|]; cbn; try done;
    destruct byTag as [r|]; try done; cbn; intros [= <-];
    try by apply (HbyTag r).
  intros y Hy. apply list_elem_of_In, filter_In in Hy as [Hy _].
  apply (HbyTag r eq_refl). by apply list_elem_of_In.
Qed.

(** With string parameters no callback throws. *)
Lemma list_notes_strings tag q st :
  tag <> Some QOther -> q <> Some QOther ->
  exists l, list_notes tag q st = respond 200 (RNotes l).
Proof.
  intros Ht Hq. unfold list_notes.
  destruct tag as [[t|]|], q as [[s|]|]; try done; cbn;
    try destruct (bool_decide (t = EmptyString)); cbn;
    rewrite ?filter_with_tag; cbn;
    try destruct (bool_decide (s = EmptyString)); cbn; eauto.
Qed.

Lemma list_notes_status tag q st : status (list_notes tag q st) <> 201.
Proof.
  unfold list_notes.
  by destruct (match truthy_param q with Some _ => _ | None => _ end).
Qed.

End Filters.

(** ** Where a 500 comes from *)

(** The handlers' [catch] branch is reached by GET /notes with a query
    parameter that is not a string, and by nothing else: the other handlers
    run after [validateNote] or call nothing that throws. *)
Lemma internal_error_only_from_query r e st :
  response_of (handle r e st) = internal_error ->
  exists tag q, r = GET_notes tag q /\ (tag = Some QOther \/ q = Some QOther).
Proof.
  destruct r as [body|tag q|param|param body|param|].
  - destruct (validateNote body) as [res|] eqn:Hv.
    + cbn [handle]. rewrite Hv.
      by destruct (validateNote_rejects _ _ Hv) as (msg & -> & _).
    + by rewrite (create_valid _ e st Hv).
  - intros H. exists tag, q. split; [done|].
    destruct (decide (tag = Some QOther)) as [|Ht]; [by left|].
    destruct (decide (q = Some QOther)) as [|Hq]; [by right|].
    destruct (list_notes_strings tag q st Ht Hq) as [l Hl].
    cbn in H. by rewrite Hl in H.
  - cbn. unfold get_note. destruct (isNaN _); [done|].
    by destruct (find _ _).
  - destruct (validateNote body) as [res|] eqn:Hv.
    { cbn [handle]. rewrite Hv.
      by destruct (validateNote_rejects _ _ Hv) as (msg & -> & _). }
    destruct (JsNumber.parseInt param) as [|n] eqn:Hp.
    { cbn [handle]. rewrite Hv. unfold update. by rewrite Hp. }
    destruct (findIndex (Num n) (notes st)) as [[i x]|] eqn:Hf.
    + by rewrite (update_found _ _ _ e st _ _ Hp Hv Hf).
    + cbn [handle]. rewrite Hv. unfold update. by rewrite Hp, Hf.
  - cbn [handle]. unfold remove. destruct (isNaN _); [done|].
    by destruct (findIndex _ _) as [[? ?]|].
  - done.
Qed.

(** ** Doubles *)

Lemma pow_2_53 : 2 ^ 53 = 9007199254740992.
Proof. reflexivity. Qed.

Lemma round53_exact z : exact z -> round53 z = z.
Proof. unfold exact, round53. intros H. by apply Z.leb_le in H as ->. Qed.

Lemma safe_exact z : safe z -> exact z.
Proof. unfold safe, exact. lia. Qed.

Lemma safe_succ_exact z : safe z -> exact (z + 1).
Proof. unfold safe, exact. lia. Qed.

Lemma max_id_safe l : Forall safe l -> safe (max_id l).
Proof.
  unfold max_id, safe. rewrite pow_2_53.
  induction 1 as [|i l Hi _ IH]; cbn [foldr]; lia.
Qed.

Example round53_samples :
  round53 (2 ^ 53 + 1) = 2 ^ 53 /\ round53 (2 ^ 53 + 2) = 2 ^ 53 + 2 /\
  round53 (2 ^ 53 + 3) = 2 ^ 53 + 4 /\ round53 (- 2 ^ 53 - 1) = - 2 ^ 53 /\
  round53 (2 ^ 54 + 1) = 2 ^ 54 /\ round53 (2 ^ 54 + 2) = 2 ^ 54 /\
  round53 (2 ^ 54 + 3) = 2 ^ 54 + 4 /\ round53 (2 ^ 54 - 1) = 2 ^ 54 /\
  round53 (10 ^ 21 + 1) = 10 ^ 21 /\
  add1 (Num (2 ^ 53)) = Num (2 ^ 53) /\ add1 (Num (2 ^ 53 - 1)) = Num (2 ^ 53).
Proof. repeat split; reflexivity. Qed.

(** ** Start-up on a file that holds notes *)

Section WellFormedFile.
Variable StringToNumber : string -> number.
Variable ObjectToNumber : json -> option number.
Variable max_arguments : Z.

Lemma decode_note_id j note :
  Startup.decode_note j = Some note -> Startup.get_id j = Some (Some (JNum (id note))).
Proof.
  destruct j as [| | | | |o]; try done. cbn.
  destruct (prop "id" o) as [[| |i| | |]|]; try done.
  destruct (prop "title" o) as [[| | |t| |]|]; try done.
  destruct (prop "content" o) as [[| | |c| |]|]; try done.
  destruct (prop "tags" o) as [[| | | |tg|]|]; try done.
  destruct (prop "createdAt" o) as [[| | |ca| |]|]; try done.
  destruct (prop "updatedAt" o) as [[| | |ua| |]|]; try done.
  destruct (mapM Startup.as_string tg); [|done]. by intros [= <-].
Qed.

Lemma map_ids_decoded items ns :
  mapM Startup.decode_note items = Some ns ->
  Startup.map_ids (JArr items) = Some ((fun note => Some (JNum (id note))) <$> ns).
Proof.
  intros H%mapM_Some. apply mapM_Some, Forall2_fmap_r.
  eapply Forall2_impl; [done|]. intros j note. apply decode_note_id.
Qed.

Lemma Math_max_0_numbers (ns : list Note) :
  Startup.Math_max_0 StringToNumber ObjectToNumber max_arguments
    ((fun note => Some (JNum (id note))) <$> ns)
  = if max_arguments <? Z.of_nat (length ns) + 1 then None
    else Some (Num (max_id (map id ns))).
Proof.
  unfold Startup.Math_max_0. rewrite length_fmap.
  destruct (max_arguments <? Z.of_nat (length ns) + 1); [done|].
  assert (mapM (Startup.ToNumber StringToNumber ObjectToNumber)
            ((fun note => Some (JNum (id note))) <$> ns)
          = Some ((fun note => Num (id note)) <$> ns)) as ->.
  { apply mapM_Some, Forall2_fmap, Forall_Forall2_diag, Forall_forall. by intros note _. }
  cbn. f_equal. induction ns as [|note ns IH]; [done|].
  cbn. cbn in IH. by rewrite IH.
Qed.

(** [loadNotes] on a file that holds an array of note objects: the counter
    is the largest id (or 0) plus one, in double arithmetic, unless the array
    is longer than the spread call takes, in which case the counter stays
    1. *)
Lemma loadNotes_notes items ns :
  mapM Startup.decode_note items = Some ns ->
  Startup.decode
    (Startup.loadNotes StringToNumber ObjectToNumber max_arguments
       (Startup.Parsed (JArr items)) Startup.initial)
  = Some {| notes := ns;
            nextId := if max_arguments <? Z.of_nat (length ns) + 1 then 1
                      else round53 (max_id (map id ns) + 1) |}.
Proof.
  intros Hns. cbn [Startup.loadNotes]. unfold Startup.next_after.
  rewrite (map_ids_decoded _ _ Hns). cbn [mbind option_bind].
  rewrite Math_max_0_numbers.
  destruct (max_arguments <? Z.of_nat (length ns) + 1); cbn;
    unfold Startup.decode; cbn [Startup.notes Startup.nextId]; by rewrite Hns.
Qed.

Lemma loadNotes_notes_safe items ns :
  mapM Startup.decode_note items = Some ns ->
  Z.of_nat (length ns) < max_arguments ->
  Forall safe (map id ns) ->
  Startup.decode
    (Startup.loadNotes StringToNumber ObjectToNumber max_arguments
       (Startup.Parsed (JArr items)) Startup.initial)
  = Some {| notes := ns; nextId := max_id (map id ns) + 1 |}.
Proof.
  intros Hns Hlen Hsafe. rewrite (loadNotes_notes _ _ Hns).
  rewrite (proj2 (Z.ltb_ge _ _)) by lia.
  by rewrite (round53_exact _ (safe_succ_exact _ (max_id_safe _ Hsafe))).
Qed.


End WellFormedFile.

(** ** Start-up on an arbitrary file *)

Section ArbitraryFile.
Variable StringToNumber : string -> number.
Variable ObjectToNumber : json -> option number.
Variable max_arguments : Z.

Abbreviation loadNotes := (Startup.loadNotes StringToNumber ObjectToNumber max_arguments).
Abbreviation next_after := (Startup.next_after StringToNumber ObjectToNumber max_arguments).

Lemma loadNotes_parsed v st :
  Startup.notes (loadNotes (Startup.Parsed v) st) = v /\
  Startup.nextId (loadNotes (Startup.Parsed v) st)
    = match next_after v with Some n => n | None => Startup.nextId st end.
Proof. cbn. by destruct (Startup.next_after _ _ _ v). Qed.

Lemma next_after_not_array v : (forall items, v <> JArr items) -> next_after v = None.
Proof. intros Hv. destruct v; try done. by destruct (Hv items). Qed.

Lemma map_ids_null items : JNull ∈ items -> Startup.map_ids (JArr items) = None.
Proof.
  intros Hin. cbn. destruct (mapM Startup.get_id items) as [k|] eqn:Hk; [|done].
  apply mapM_Some in Hk. apply list_elem_of_lookup in Hin as [i Hi].
  by destruct (Forall2_lookup_l _ _ _ i JNull Hk Hi) as (y & _ & Hy).
Qed.

(** An array longer than the spread call takes: the call throws. *)
Lemma next_after_too_long items :
  max_arguments <= Z.of_nat (length items) -> next_after (JArr items) = None.
Proof.
  intros Hlen. unfold Startup.next_after.
  destruct (Startup.map_ids (JArr items)) as [args|] eqn:Hargs; [|done].
  cbn [mbind option_bind]. unfold Startup.Math_max_0.
  cbn in Hargs. apply mapM_Some, Forall2_length in Hargs. rewrite <- Hargs.
  by rewrite (proj2 (Z.ltb_lt _ _)) by lia.
Qed.

Lemma next_after_objects items :
  Z.of_nat (length items) < max_arguments ->
  forallb id_numeric_or_absent items = true ->
  next_after (JArr items)
  = Some (add1 (foldr Startup.max2 (Num 0) (id_number <$> items))).
Proof.
  intros Hlen Hall. rewrite forallb_forall in Hall.
  unfold Startup.next_after, Startup.Math_max_0.
  assert (Startup.map_ids (JArr items) = Some (id_value <$> items)) as ->.
  { apply mapM_Some, Forall2_fmap_r, Forall_Forall2_diag, Forall_forall.
    intros x Hx%list_elem_of_In%Hall. by destruct x. }
  cbn [mbind option_bind]. rewrite length_fmap.
  rewrite (proj2 (Z.ltb_ge _ _)) by lia.
  assert (mapM (Startup.ToNumber StringToNumber ObjectToNumber) (id_value <$> items)
          = Some (id_number <$> items)) as ->; [|done].
  apply mapM_Some, Forall2_fmap, Forall_Forall2_diag, Forall_forall.
  intros x Hx%list_elem_of_In%Hall. unfold id_number.
  destruct x as [| | | | |o]; try done. cbn in *.
  by destruct (prop "id" o) as [[]|].
Qed.

Lemma max2_numeric items :
  forallb has_numeric_id items = true ->
  foldr Startup.max2 (Num 0) (id_number <$> items) = Num (max_id (numeric_ids items)).
Proof.
  unfold max_id, numeric_ids. induction items as [|x items IH]; [done|].
  cbn [forallb]. rewrite andb_true_iff. intros [Hx Hi]. csimpl. rewrite (IH Hi).
  destruct x as [| | | | |o]; try done. unfold id_number. cbn in *.
  by destruct (prop "id" o) as [[]|].
Qed.

Lemma max2_absent items :
  existsb id_absent items = true ->
  foldr Startup.max2 (Num 0) (id_number <$> items) = NaN.
Proof.
  induction items as [|x items IH]; [done|].
  cbn [existsb]. rewrite orb_true_iff. csimpl. intros [Hx|Hi].
  - destruct x as [| | | | |o]; try done. unfold id_number. cbn in *.
    by destruct (prop "id" o).
  - rewrite (IH Hi). by destruct (id_number x).
Qed.

Lemma has_numeric_id_weaken items :
  forallb has_numeric_id items = true -> forallb id_numeric_or_absent items = true.
Proof.
  rewrite !forallb_forall. intros H x Hx. specialize (H x Hx).
  destruct x as [| | | | |o]; try done. cbn in *. by destruct (prop "id" o) as [[]|].
Qed.

End ArbitraryFile.

(** ** Invariants of a run *)

(** One request either appends a note under the counter's value and advances
    the counter (a 201), or keeps a sub-collection and hands out no id. *)
Lemma handle_step r e st :
  (ids (store_of (handle r e st)) = ids st ++ [nextId st] /\
   nextId (store_of (handle r e st)) = nextId st + 1 /\
   assigned (response_of (handle r e st)) = [nextId st]) \/
  (ids (store_of (handle r e st)) `sublist_of` ids st /\
   nextId st <= nextId (store_of (handle r e st)) /\
   assigned (response_of (handle r e st)) = []).
Proof.
  assert (Hsame : forall res, status res <> 201 ->
            ids (store_of (st, res, @nil effect)) `sublist_of` ids st /\
            nextId st <= nextId (store_of (st, res, @nil effect)) /\
            assigned (response_of (st, res, @nil effect)) = []).
  { intros res Hres. cbn. split_and!; [done..|]. unfold assigned.
    by destruct (Z.eqb_spec (status res) 201). }
  destruct r as [body|tag q|param|param body|param|].
  - destruct (validateNote body) as [res|] eqn:Hv.
    + right. cbn [handle]. rewrite Hv.
      destruct (validateNote_rejects _ _ Hv) as (msg & -> & _). by apply Hsame.
    + left. rewrite (create_valid _ _ _ Hv). cbn. unfold ids. cbn.
      by rewrite map_app.
  - right. cbn [handle]. apply Hsame, list_notes_status.
  - right. cbn [handle]. apply Hsame. unfold get_note.
    destruct (isNaN _); [done|]. by destruct (find _ _).
  - right. destruct (validateNote body) as [res|] eqn:Hv.
    { cbn [handle]. rewrite Hv.
      destruct (validateNote_rejects _ _ Hv) as (msg & -> & _). by apply Hsame. }
    destruct (JsNumber.parseInt param) as [|n] eqn:Hp.
    { cbn [handle]. rewrite Hv. unfold update. rewrite Hp. by apply Hsame. }
    destruct (findIndex (Num n) (notes st)) as [[i x]|] eqn:Hf.
    2:{ cbn [handle]. rewrite Hv. unfold update. rewrite Hp, Hf. by apply Hsame. }
    rewrite (update_found _ _ _ _ _ _ _ Hp Hv Hf).
    cbn. split_and!; [|done..]. unfold ids. cbn.
    apply findIndex_Some in Hf as (Hi & _).
    change (map id ?l) with (id <$> l). rewrite list_fmap_insert. cbn.
    rewrite list_insert_id; [done|]. by rewrite list_lookup_fmap, Hi.
  - right. cbn [handle]. unfold remove.
    destruct (isNaN _); [by apply Hsame|].
    destruct (findIndex _ _) as [[i x]|]; [|by apply Hsame].
    cbn. split_and!; [|done..]. unfold ids. cbn.
    change (map id ?l) with (id <$> l). rewrite list_fmap_delete.
    apply sublist_delete.
  - right. cbn [handle]. by apply Hsame.
Qed.

Lemma handle_consistent r e st hist :
  consistent st hist ->
  consistent (store_of (handle r e st)) (hist ++ assigned (response_of (handle r e st))) /\
  nextId st <= nextId (store_of (handle r e st)) /\
  (NoDup (ids st) -> NoDup (ids (store_of (handle r e st)))).
Proof.
  intros [Hlt Hsub]. unfold consistent.
  destruct (handle_step r e st) as [(-> & -> & ->)|(Hsl & Hle & ->)].
  - split_and!.
    + apply Forall_app. split; [|apply Forall_singleton; lia].
      eapply Forall_impl; [done|]. cbn. lia.
    + intros i [Hi|Hi]%elem_of_app; apply elem_of_app; [left; by apply Hsub | by right].
    + lia.
    + intros Hnd. apply NoDup_app. split_and!; [done| |apply NoDup_singleton].
      intros i Hi ->%list_elem_of_singleton.
      apply Hsub in Hi. rewrite Forall_forall in Hlt. specialize (Hlt _ Hi). lia.
  - rewrite app_nil_r. split_and!.
    + eapply Forall_impl; [done|]. cbn. lia.
    + intros i Hi. apply Hsub. by eapply sublist_subseteq.
    + done.
    + intros Hnd. by eapply sublist_NoDup.
Qed.

Lemma serve_consistent reqs : forall st hist,
  consistent st hist ->
  consistent (serve reqs st hist).1 (serve reqs st hist).2 /\
  nextId st <= nextId (serve reqs st hist).1 /\
  (NoDup (ids st) -> NoDup (ids (serve reqs st hist).1)).
Proof.
  induction reqs as [|[r e] reqs IH]; intros st hist Hc; cbn [serve].
  - by split_and!.
  - destruct (handle_consistent r e st hist Hc) as (Hc' & Hle & Hnd).
    destruct (IH _ _ Hc') as (Hc'' & Hle' & Hnd').
    split_and!; [done|lia|auto].
Qed.

Lemma max_id_bound l : Forall (fun i => i < max_id l + 1) l.
Proof.
  unfold max_id. induction l as [|x l IH]; [done|]. cbn. constructor; [lia|].
  eapply Forall_impl; [done|]. cbn. lia.
Qed.




(* ================================================================= *)
(** * Part IV: the claims *)

(** ** C1: identifiers *)



(** After note 2 is deleted its id is not handed out again. *)
Example ids_after_delete :
  serve delete_then_post two_notes (ids two_notes)
  = ({| notes := [note1; created_note {| notes := [note1]; nextId := 3 |} body_AB env0];
        nextId := 4 |}, [1; 2; 3]).
Proof. reflexivity. Qed.


(** ** C2: validation *)

(** C2.  A POST or PUT whose body has a bad title, a bad content or bad tags
    is answered 400 with a message naming a field that fails; the store (the
    collection and the counter) is as before and the handler has no effect on
    the outside world, so the notes file is not written. *)
Theorem invalid_body_rejected (r : request) (body : object) (e : env) (st : store) :
  invalid body ->
  r = POST_notes body \/ (exists param, r = PUT_note param body) ->
  exists msg,
    handle r e st = (st, respond 400 (RError msg), []) /\
    names_failing_field msg body /\
    ~ wrote (handle r e st).
Proof.
  intros Hinv Hr.
  destruct (validateNote body) as [res|] eqn:Hv;
    [|by apply validateNote_invalid in Hinv].
  destruct (validateNote_rejects _ _ Hv) as (msg & -> & Hmsg).
  assert (handle r e st = (st, respond 400 (RError msg), [])) as Hh.
  { destruct Hr as [->|[param ->]]; simpl; by rewrite Hv. }
  exists msg. split; [done|]. split; [done|].
  rewrite Hh. intros (data & ok & Hin). by apply elem_of_nil in Hin.
Qed.

Lemma invalid_body_rejected_witness :
  exists msg,
    handle (PUT_note "1" body_bad) env0 only_note1
      = (only_note1, respond 400 (RError msg), []) /\
    names_failing_field msg body_bad /\
    ~ wrote (handle (PUT_note "1" body_bad) env0 only_note1).
Proof.
  apply invalid_body_rejected.
  - right; left. right; left. exists (JNum 3). split; [reflexivity | discriminate].
  - right. exists "1". reflexivity.
Defined.

Example validation_samples :
  validateNote body_bad = Reject (respond 400 (RError title_message)) /\
  validateNote [("title", JStr "t")] = Reject (respond 400 (RError content_message)) /\
  validateNote [("title", JStr "t"); ("content", JStr "c"); ("tags", JNull)]
    = Reject (respond 400 (RError tags_array_message)) /\
  validateNote [("title", JStr "t"); ("content", JStr "c"); ("tags", JArr [JStr "a"; JNum 1])]
    = Reject (respond 400 (RError tags_element_message)) /\
  validateNote body_EF = Next.
Proof. repeat split; reflexivity. Qed.

(** ** C3: path parameters *)

(** C3, as amended.  When [parseInt] finds no digit in the path parameter
    (after white space, a sign and a [0x] prefix), GET, PUT and DELETE on
    [/notes/:id] answer 400; the store is as before, nothing is written, and
    the answer is the same whatever the store holds. *)
Theorem unparsable_id_rejected (r : request) (param : string) (e : env) (st : store) :
  isNaN (JsNumber.parseInt param) = true ->
  r = GET_note param \/ (exists body, r = PUT_note param body) \/ r = DELETE_note param ->
  status (response_of (handle r e st)) = 400 /\
  store_of (handle r e st) = st /\
  effects_of (handle r e st) = [] /\
  forall st', response_of (handle r e st') = response_of (handle r e st).
Proof.
  intros Hnan [->|[[body ->]| ->]]; simpl.
  - unfold get_note. by rewrite Hnan.
  - destruct (validateNote body) as [res|] eqn:Hv.
    + by destruct (validateNote_rejects _ _ Hv) as (msg & -> & _).
    + unfold update. by rewrite Hnan.
  - unfold remove. by rewrite Hnan.
Qed.

Lemma unparsable_id_rejected_witness :
  status (response_of (handle (DELETE_note "abc") env0 only_note1)) = 400 /\
  store_of (handle (DELETE_note "abc") env0 only_note1) = only_note1 /\
  effects_of (handle (DELETE_note "abc") env0 only_note1) = [] /\
  forall st', response_of (handle (DELETE_note "abc") env0 st') =
              response_of (handle (DELETE_note "abc") env0 only_note1).
Proof.
  apply (unparsable_id_rejected _ "abc").
  - reflexivity.
  - right; right. reflexivity.
Defined.

(** C3, as stated, fails: [1.5] and [1abc] are not integers, yet [parseInt]
    reads the [1] they start with; the store is looked up, GET answers 200
    with note 1 and DELETE removes it. *)
Lemma non_integer_id_served :
  is_integer_literal "1.5" = false /\
  is_integer_literal "1abc" = false /\
  handle (GET_note "1.5") env0 only_note1 = (only_note1, respond 200 (RNote note1), []) /\
  handle (GET_note "1abc") env0 only_note1 = (only_note1, respond 200 (RNote note1), []) /\
  handle (DELETE_note "1abc") env0 only_note1 =
    ({| notes := []; nextId := 2 |}, respond 204 REmpty, [WriteFile [] true]).
Proof. repeat split; reflexivity. Qed.


(** ** C4: listing and filtering *)

(** C4, as amended.  For string parameters, and a [tag] that is not the
    empty string: GET /notes with [tag] alone answers with exactly the notes,
    in collection order, that have some tag containing [tag] up to case; with
    [q] alone, exactly those whose title or content contains [q] up to case;
    with both, exactly those that satisfy both; with neither, the whole
    collection.  An empty [tag] is treated as no [tag] at all. *)
Theorem list_notes_filters (t q : string) (st : store) :
  t <> EmptyString ->
  list_notes (Some (QStr t)) None st
    = respond 200 (RNotes (filter (tag_match t) (notes st))) /\
  list_notes None (Some (QStr q)) st
    = respond 200 (RNotes (filter (text_match q) (notes st))) /\
  list_notes (Some (QStr t)) (Some (QStr q)) st
    = respond 200 (RNotes (filter (fun note => text_match q note /\ tag_match t note)
                                  (notes st))) /\
  list_notes None None st = respond 200 (RNotes (notes st)) /\
  list_notes (Some (QStr EmptyString)) (Some (QStr q)) st
    = list_notes None (Some (QStr q)) st /\
  list_notes (Some (QStr EmptyString)) None st = list_notes None None st.
Proof.
  intros Ht.
  assert (truthy_param (Some (QStr t)) = Some (QStr t)) as Hgt.
  { cbn. by rewrite bool_decide_eq_false_2. }
  assert (forall l : list Note,
            match truthy_param (Some (QStr q)) with
            | Some (QStr q') =>
                Some (List.filter (search_filter (JsString.toLowerCase q')) l)
            | Some QOther => None
            | None => Some l
            end = Some (filter (text_match q) l)) as Hq.
  { intros l. cbn. destruct (decide (q = EmptyString)) as [->|Hq].
    - cbn. rewrite filter_all; [done | apply text_match_empty].
    - rewrite (bool_decide_eq_false_2 _ Hq). by rewrite filter_search. }
  split_and!; try done.
  - unfold list_notes. rewrite Hgt. cbn. by rewrite filter_with_tag.
  - unfold list_notes. cbn [truthy_param]. cbn [mbind option_bind].
    by rewrite Hq.
  - unfold list_notes. rewrite Hgt. cbn [mbind option_bind].
    rewrite filter_with_tag.
    specialize (Hq (filter (tag_match t) (notes st))).
    destruct (truthy_param (Some (QStr q))) as [[q'|]|]; try done;
      injection Hq as Hq; cbn; rewrite Hq; by rewrite list_filter_filter.
Qed.

Lemma list_notes_filters_witness :
  list_notes (Some (QStr "X")) None two_notes
    = respond 200 (RNotes (filter (tag_match "X") (notes two_notes))) /\
  list_notes None (Some (QStr "b")) two_notes
    = respond 200 (RNotes (filter (text_match "b") (notes two_notes))) /\
  list_notes (Some (QStr "X")) (Some (QStr "b")) two_notes
    = respond 200 (RNotes (filter (fun note => text_match "b" note /\ tag_match "X" note)
                                  (notes two_notes))) /\
  list_notes None None two_notes = respond 200 (RNotes (notes two_notes)) /\
  list_notes (Some (QStr EmptyString)) (Some (QStr "b")) two_notes
    = list_notes None (Some (QStr "b")) two_notes /\
  list_notes (Some (QStr EmptyString)) None two_notes = list_notes None None two_notes.
Proof. apply list_notes_filters. discriminate. Defined.

(** A parameter that is not a string makes the callback throw as soon as it
    is called. *)
Example list_notes_sample :
  list_notes (Some (QStr "X")) None two_notes = respond 200 (RNotes [note2]) /\
  list_notes None (Some (QStr "b")) two_notes = respond 200 (RNotes [note1]) /\
  list_notes (Some (QStr "X")) (Some (QStr "b")) two_notes = respond 200 (RNotes []) /\
  list_notes (Some QOther) None two_notes = internal_error /\
  list_notes (Some QOther) None only_note1 = respond 200 (RNotes []) /\
  list_notes None (Some QOther) only_note1 = internal_error.
Proof. repeat split; reflexivity. Qed.

(** C4, as stated, fails for [GET /notes?tag=]: the parameter is there and
    empty, no note without tags has a tag containing it, and yet the answer
    is the whole collection. *)
Lemma empty_tag_lists_everything :
  list_notes (Some (QStr EmptyString)) None only_note1 = respond 200 (RNotes [note1]) /\
  filter (tag_match EmptyString) (notes only_note1) = [].
Proof. split; reflexivity. Qed.

(** ** C5: update *)

(** C5, as amended.  A valid PUT on an id [n] that a note of the collection
    has answers 200 with the first such note, [x], updated (the only such
    note when ids are pairwise distinct): title, content and tags are the
    body's, trimmed, [updatedAt] is the current time, [id] and [createdAt]
    are [x]'s.  The updated note takes [x]'s place, and every other position
    of the collection, a later note with the same id included, and the
    counter are as before.  On an id that no note has, PUT answers 404 and
    changes nothing. *)
Theorem update_replaces_in_place
    (param : string) (n : Z) (body : object) (e : env) (st : store) :
  JsNumber.parseInt param = Num n ->
  validateNote body = Next ->
  (n ∈ ids st ->
     exists i x,
       notes st !! i = Some x /\ id x = n /\
       (forall j y, notes st !! j = Some y -> (j < i)%nat -> id y <> n) /\
       (NoDup (ids st) -> forall y, y ∈ notes st -> id y = n -> y = x) /\
       response_of (handle (PUT_note param body) e st)
         = respond 200 (RNote (updated_note x body e)) /\
       notes (store_of (handle (PUT_note param body) e st))
         = <[i := updated_note x body e]> (notes st) /\
       notes (store_of (handle (PUT_note param body) e st)) !! i
         = Some (updated_note x body e) /\
       (forall j, j <> i ->
          notes (store_of (handle (PUT_note param body) e st)) !! j = notes st !! j) /\
       nextId (store_of (handle (PUT_note param body) e st)) = nextId st) /\
  (n ∉ ids st -> handle (PUT_note param body) e st = (st, not_found, [])).
Proof.
  intros Hp Hv. split; [|by apply update_absent].
  intros Hin. destruct (findIndex_present n (notes st) Hin) as (i & x & Hf).
  pose proof Hf as (Hi & Hid & Hfirst)%findIndex_Some.
  exists i, x. rewrite (update_found _ _ _ _ _ _ _ Hp Hv Hf). cbn.
  split_and!; try done.
  - intros Hnd y Hy Hyn.
    destruct (findIndex_unique n (notes st) y Hnd Hy Hyn) as (j & Hj & _).
    congruence.
  - apply list_lookup_insert_eq. by eapply lookup_lt_Some.
  - intros j Hj. by apply list_lookup_insert_ne.
Qed.

Lemma update_replaces_in_place_witness :
  (2 ∈ ids two_notes ->
     exists i x,
       notes two_notes !! i = Some x /\ id x = 2 /\
       (forall j y, notes two_notes !! j = Some y -> (j < i)%nat -> id y <> 2) /\
       (NoDup (ids two_notes) -> forall y, y ∈ notes two_notes -> id y = 2 -> y = x) /\
       response_of (handle (PUT_note "2" body_EF) env0 two_notes)
         = respond 200 (RNote (updated_note x body_EF env0)) /\
       notes (store_of (handle (PUT_note "2" body_EF) env0 two_notes))
         = <[i := updated_note x body_EF env0]> (notes two_notes) /\
       notes (store_of (handle (PUT_note "2" body_EF) env0 two_notes)) !! i
         = Some (updated_note x body_EF env0) /\
       (forall j, j <> i ->
          notes (store_of (handle (PUT_note "2" body_EF) env0 two_notes)) !! j
          = notes two_notes !! j) /\
       nextId (store_of (handle (PUT_note "2" body_EF) env0 two_notes))
         = nextId two_notes) /\
  (2 ∉ ids two_notes ->
     handle (PUT_note "2" body_EF) env0 two_notes = (two_notes, not_found, [])).
Proof.
  apply update_replaces_in_place.
  - reflexivity.
  - reflexivity.
Defined.

Example update_sample :
  handle (PUT_note "2" body_EF) env0 two_notes =
    ({| notes := [note1;
                  {| id := 2; title := "E"; content := "F"; tags := ["t1"; "t2"];
                     createdAt := "2023-12-31T00:00:00.000Z";
                     updatedAt := "2024-01-01T00:00:00.000Z" |}];
        nextId := 3 |},
     respond 200 (RNote {| id := 2; title := "E"; content := "F"; tags := ["t1"; "t2"];
                           createdAt := "2023-12-31T00:00:00.000Z";
                           updatedAt := "2024-01-01T00:00:00.000Z" |}),
     [WriteFile [note1;
                 {| id := 2; title := "E"; content := "F"; tags := ["t1"; "t2"];
                    createdAt := "2023-12-31T00:00:00.000Z";
                    updatedAt := "2024-01-01T00:00:00.000Z" |}] true]).
Proof. reflexivity. Qed.

(** Where two notes share an id, PUT reaches the first of them only. *)
Example update_repeated_id :
  notes (store_of (handle (PUT_note "1" body_no_tags) env0 twice_note1))
  = [updated_note note1 body_no_tags env0; note1].
Proof. reflexivity. Qed.

(** C5, as stated, fails in a collection that holds an id twice, as the one
    loaded from a notes file with two notes of id 1: the second of them is a
    note present in the collection with id 1, and a valid PUT /notes/1 is
    answered 200 and leaves its title, content and tags as they were. *)
Lemma update_misses_twin :
  (forall S O A, 2 < A ->
     Startup.decode
       (Startup.loadNotes S O A (Startup.Parsed (JArr [note1_json; twin_json]))
          Startup.initial)
     = Some with_twin) /\
  twin ∈ notes with_twin /\
  id twin = 1 /\
  validateNote body_EF = Next /\
  handle (PUT_note "1" body_EF) env0 with_twin =
    ({| notes := [updated_note note1 body_EF env0; twin]; nextId := 2 |},
     respond 200 (RNote (updated_note note1 body_EF env0)),
     [WriteFile [updated_note note1 body_EF env0; twin] true]) /\
  title twin <> JsString.trim (body_text "title" body_EF) /\
  content twin <> JsString.trim (body_text "content" body_EF) /\
  tags twin <> JsString.trim <$> body_tags body_EF.
Proof.
  split_and!; try done.
  - intros S O A HA.
    rewrite (loadNotes_notes S O A [note1_json; twin_json] [note1; twin] eq_refl).
    cbn [length]. by rewrite (proj2 (Z.ltb_ge _ _)) by lia.
  - right; left.
Qed.

(** ** C6: delete *)

(** C6, as amended.  DELETE on an id [n] that a note has answers 204 with
    no body and removes the first note with that id, and that note only:
    the collection is the old one without that position, and the counter is
    as before.  If the ids in the collection are pairwise distinct, then
    right after it every GET /notes/n answers 404 and no GET /notes
    (whatever its parameters) lists a note with id [n].  On an id that no
    note has, DELETE answers 404 and changes nothing. *)
Theorem delete_then_gone (param : string) (n : Z) (e : env) (st : store) :
  JsNumber.parseInt param = Num n ->
  (n ∈ ids st ->
     exists i x,
       notes st !! i = Some x /\ id x = n /\
       (forall j y, notes st !! j = Some y -> (j < i)%nat -> id y <> n) /\
       response_of (handle (DELETE_note param) e st) = respond 204 REmpty /\
       notes (store_of (handle (DELETE_note param) e st)) = delete i (notes st) /\
       nextId (store_of (handle (DELETE_note param) e st)) = nextId st /\
       (forall y, y ∈ notes st -> id y <> n ->
          y ∈ notes (store_of (handle (DELETE_note param) e st))) /\
       (NoDup (ids st) ->
          (n ∉ ids (store_of (handle (DELETE_note param) e st))) /\
          (forall param' e', JsNumber.parseInt param' = Num n ->
             response_of (handle (GET_note param') e'
                            (store_of (handle (DELETE_note param) e st)))
             = not_found) /\
          (forall tag q e' l,
             response_of (handle (GET_notes tag q) e'
                            (store_of (handle (DELETE_note param) e st)))
             = respond 200 (RNotes l) ->
             n ∉ map id l))) /\
  (n ∉ ids st -> handle (DELETE_note param) e st = (st, not_found, [])).
Proof.
  intros Hp. split; [|by apply remove_absent].
  intros Hin. destruct (findIndex_present n (notes st) Hin) as (i & x & Hf).
  rewrite (remove_found _ _ _ _ _ _ Hp Hf). cbn.
  pose proof Hf as (Hi & Hid & Hfirst)%findIndex_Some.
  exists i, x. split_and!; try done.
  - intros y Hy Hne. apply list_elem_of_lookup in Hy as [j Hj].
    assert (j <> i) as Hji by (intros ->; congruence).
    apply list_elem_of_lookup.
    destruct (decide (j < i)%nat).
    + exists j. by rewrite list_lookup_delete_lt.
    + exists (pred j). rewrite list_lookup_delete_ge by lia.
      by replace (Datatypes.S (pred j)) with j by lia.
  - intros Hnd.
    assert (n ∉ map id (delete i (notes st))) as Hgone.
    { change (map id (delete i (notes st))) with (id <$> delete i (notes st)).
      rewrite list_fmap_delete. apply NoDup_delete_absent; [done|].
      by rewrite list_lookup_fmap, Hi, <- Hid. }
    split_and!; [done|..].
    + intros param' _ Hp'. by apply (get_note_absent param' n).
    + intros tag q _ l Hl (y & Hy & Hyl)%list_elem_of_fmap.
      apply Hgone, list_elem_of_fmap. exists y. split; [done|].
      by apply (list_notes_sub tag q _ l Hl).
Qed.

Lemma delete_then_gone_witness :
  JsNumber.parseInt "2" = Num 2 /\
  2 ∈ ids two_notes /\
  NoDup (ids two_notes) /\
  handle (DELETE_note "2") env0 two_notes
    = ({| notes := [note1]; nextId := 3 |}, respond 204 REmpty, [WriteFile [note1] true]) /\
  (exists i x,
     notes two_notes !! i = Some x /\ id x = 2 /\
     notes (store_of (handle (DELETE_note "2") env0 two_notes)) = delete i (notes two_notes)) /\
  (forall param' e', JsNumber.parseInt param' = Num 2 ->
     response_of (handle (GET_note param') e'
                    (store_of (handle (DELETE_note "2") env0 two_notes)))
     = not_found).
Proof.
  assert (2 ∈ ids two_notes) as Hin by (cbn; rewrite !elem_of_cons; auto).
  assert (NoDup (ids two_notes)) as Hnd.
  { apply (bool_decide_unpack (NoDup (ids two_notes))). vm_compute. exact I. }
  destruct (delete_then_gone "2" 2 env0 two_notes eq_refl) as [Hpresent _].
  destruct (Hpresent Hin) as (i & x & Hi & Hid & _ & _ & Hdel & _ & _ & Hgone).
  destruct (Hgone Hnd) as (_ & Hget & _).
  split_and!; [reflexivity|exact Hin|exact Hnd|reflexivity| |exact Hget].
  exists i, x. split_and!; [exact Hi|exact Hid|exact Hdel].
Defined.

Example delete_sample :
  handle (DELETE_note "1") env0 two_notes =
    ({| notes := [note2]; nextId := 3 |}, respond 204 REmpty, [WriteFile [note2] true]) /\
  handle (DELETE_note "7") env0 two_notes = (two_notes, not_found, []).
Proof. split; reflexivity. Qed.

(** C6, as stated, fails in a collection that holds an id twice, as the one
    loaded from a notes file with two notes of id 1: DELETE /notes/1 answers
    204 and removes the first of them, and the GET /notes/1 and the GET /notes
    that follow still answer with the second. *)
Lemma delete_leaves_twin :
  (forall S O A, 2 < A ->
     Startup.decode
       (Startup.loadNotes S O A (Startup.Parsed (JArr [note1_json; note1_json]))
          Startup.initial)
     = Some twice_note1) /\
  handle (DELETE_note "1") env0 twice_note1 =
    (only_note1, respond 204 REmpty, [WriteFile [note1] true]) /\
  handle (GET_note "1") env0 only_note1 = (only_note1, respond 200 (RNote note1), []) /\
  handle (GET_notes None None) env0 only_note1 =
    (only_note1, respond 200 (RNotes [note1]), []).
Proof.
  split_and!; try done.
  intros S O A HA.
  rewrite (loadNotes_notes S O A [note1_json; note1_json] [note1; note1] eq_refl).
  cbn [length]. by rewrite (proj2 (Z.ltb_ge _ _)) by lia.
Qed.

(** ** C7: a failed save *)

(** C7.  Whether [fs.writeFile] succeeds or fails, a request leaves the same
    store and gets the same response (status and body): a failed save is
    logged on the console and nothing else.  In particular each successful
    create, update or delete is answered 201, 200 or 204 and keeps its
    in-memory mutation when the save fails. *)
Theorem save_failure_not_surfaced (r : request) (e : env) (st : store) :
  store_of (handle r (with_write false e) st) = store_of (handle r (with_write true e) st) /\
  response_of (handle r (with_write false e) st) = response_of (handle r (with_write true e) st) /\
  (wrote (handle r (with_write false e) st) ->
   status (response_of (handle r (with_write false e) st)) ∈ [201; 200; 204] /\
   effects_of (handle r (with_write false e) st) =
     [WriteFile (notes (store_of (handle r (with_write false e) st))) false;
      ConsoleError "Error saving notes:"]).
Proof.
  assert (Hnil : forall o : outcome, effects_of o = [] -> ~ wrote o).
  { intros o Ho (data & ok & Hin). rewrite Ho in Hin. by apply elem_of_nil in Hin. }
  destruct r as [body|tag q|param|param body|param|]; cbn [handle].
  - destruct (validateNote body); [by split_and!; [..|intros []%Hnil]|].
    unfold create.
    destruct (trimmed (prop "title" body)), (trimmed (prop "content" body)),
      (trimmed_all (tags_or_default body));
      (split_and!; [done..|]); try (by intros []%Hnil).
    intros _. split; [cbn; rewrite !elem_of_cons; auto | done].
  - by split_and!; [..|intros []%Hnil].
  - by split_and!; [..|intros []%Hnil].
  - destruct (validateNote body); [by split_and!; [..|intros []%Hnil]|].
    unfold update. destruct (isNaN _); [by split_and!; [..|intros []%Hnil]|].
    destruct (findIndex _ _) as [[i old]|]; [|by split_and!; [..|intros []%Hnil]].
    destruct (trimmed (prop "title" body)), (trimmed (prop "content" body)),
      (trimmed_all (tags_or_default body));
      (split_and!; [done..|]); try (by intros []%Hnil).
    intros _. split; [cbn; rewrite !elem_of_cons; auto | done].
  - unfold remove. destruct (isNaN _); [by split_and!; [..|intros []%Hnil]|].
    destruct (findIndex _ _) as [[i old]|]; [|by split_and!; [..|intros []%Hnil]].
    split_and!; [done..|]. intros _. split; [cbn; rewrite !elem_of_cons; auto | done].
  - by split_and!; [..|intros []%Hnil].
Qed.

Example failed_save_sample :
  handle (POST_notes body_AB) (with_write false env0) empty_store =
    ({| notes := [created_note empty_store body_AB env0]; nextId := 2 |},
     respond 201 (RNote (created_note empty_store body_AB env0)),
     [WriteFile [created_note empty_store body_AB env0] false;
      ConsoleError "Error saving notes:"]).
Proof. reflexivity. Qed.

(** ** C8: create, then get *)



(** The scenario of the specification: two notes are created, the first is
    deleted, the listing holds the second only, and an update of the second
    keeps its id and [createdAt]. *)
Example scenario :
  let o1 := handle (POST_notes body_AB) env0 empty_store in
  let o2 := handle (POST_notes body_CD) env0 (store_of o1) in
  let o3 := handle (DELETE_note "1") env0 (store_of o2) in
  let o4 := handle (GET_notes None None) env0 (store_of o3) in
  let o5 := handle (PUT_note "2" body_no_tags) later (store_of o4) in
  response_of o1 = respond 201 (RNote {| id := 1; title := "A"; content := "B"; tags := [];
                                         createdAt := now env0; updatedAt := now_again env0 |}) /\
  (exists n2, response_of o2 = respond 201 (RNote n2) /\ id n2 = 2 /\
     response_of o3 = respond 204 REmpty /\
     response_of o4 = respond 200 (RNotes [n2]) /\
     response_of o5 = respond 200 (RNote {| id := 2; title := "E"; content := "F"; tags := [];
                                            createdAt := createdAt n2;
                                            updatedAt := now later |})).
Proof. cbv zeta. split; [reflexivity|]. eexists. repeat split; reflexivity. Qed.


(** ** C9: update without tags *)

(** C9, as amended.  A valid PUT whose body has no [tags] field, on an id
    [n] that a note of the collection has, leaves in the place of the first
    such note, [x] (the only such note when ids are pairwise distinct), a
    note with the empty tag list, whatever tags [x] had: the handler's
    default for an absent [tags] is the empty array.  Every other position
    of the collection, a later note with the same id included, is as
    before. *)
Theorem update_without_tags_clears_them
    (param : string) (n : Z) (body : object) (e : env) (st : store) :
  JsNumber.parseInt param = Num n ->
  validateNote body = Next ->
  prop "tags" body = None ->
  n ∈ ids st ->
  exists i x x',
    notes st !! i = Some x /\ id x = n /\
    (forall j y, notes st !! j = Some y -> (j < i)%nat -> id y <> n) /\
    (NoDup (ids st) -> forall y, y ∈ notes st -> id y = n -> y = x) /\
    response_of (handle (PUT_note param body) e st) = respond 200 (RNote x') /\
    notes (store_of (handle (PUT_note param body) e st)) !! i = Some x' /\
    (forall j, j <> i ->
       notes (store_of (handle (PUT_note param body) e st)) !! j = notes st !! j) /\
    id x' = n /\
    tags x' = [].
Proof.
  intros Hp Hv Htags Hin.
  destruct (findIndex_present n (notes st) Hin) as (i & x & Hf).
  pose proof Hf as (Hi & Hid & Hfirst)%findIndex_Some.
  exists i, x, (updated_note x body e).
  rewrite (update_found _ _ _ _ _ _ _ Hp Hv Hf). cbn.
  split_and!; try done.
  - intros Hnd y Hy Hyn.
    destruct (findIndex_unique n (notes st) y Hnd Hy Hyn) as (j & Hj & _).
    congruence.
  - apply list_lookup_insert_eq. by eapply lookup_lt_Some.
  - intros j Hj. by apply list_lookup_insert_ne.
  - unfold body_tags. by rewrite Htags.
Qed.

Lemma update_without_tags_clears_them_witness :
  exists i x x',
    notes two_notes !! i = Some x /\ id x = 2 /\
    (forall j y, notes two_notes !! j = Some y -> (j < i)%nat -> id y <> 2) /\
    (NoDup (ids two_notes) -> forall y, y ∈ notes two_notes -> id y = 2 -> y = x) /\
    response_of (handle (PUT_note "2" body_no_tags) env0 two_notes)
      = respond 200 (RNote x') /\
    notes (store_of (handle (PUT_note "2" body_no_tags) env0 two_notes)) !! i = Some x' /\
    (forall j, j <> i ->
       notes (store_of (handle (PUT_note "2" body_no_tags) env0 two_notes)) !! j
       = notes two_notes !! j) /\
    id x' = 2 /\
    tags x' = [].
Proof.
  apply (update_without_tags_clears_them "2" 2).
  - reflexivity.
  - reflexivity.
  - reflexivity.
  - right; left.
Defined.

Example update_without_tags_sample :
  tags note2 = ["x"] /\
  handle (PUT_note "2" body_no_tags) env0 two_notes =
    ({| notes := [note1; updated_note note2 body_no_tags env0]; nextId := 3 |},
     respond 200 (RNote (updated_note note2 body_no_tags env0)),
     [WriteFile [note1; updated_note note2 body_no_tags env0] true]) /\
  tags (updated_note note2 body_no_tags env0) = [].
Proof. repeat split; reflexivity. Qed.

(** C9, as stated, fails in a collection that holds an id twice, as the one
    loaded from a notes file with two notes of id 1: the second of them is a
    note present in the collection, and after a valid PUT /notes/1 without
    [tags], answered 200, it still has the tags it had. *)
Lemma twin_keeps_tags :
  (forall S O A, 2 < A ->
     Startup.decode
       (Startup.loadNotes S O A (Startup.Parsed (JArr [note1_json; twin_json]))
          Startup.initial)
     = Some with_twin) /\
  twin ∈ notes with_twin /\
  validateNote body_no_tags = Next /\
  prop "tags" body_no_tags = None /\
  handle (PUT_note "1" body_no_tags) env0 with_twin =
    ({| notes := [updated_note note1 body_no_tags env0; twin]; nextId := 2 |},
     respond 200 (RNote (updated_note note1 body_no_tags env0)),
     [WriteFile [updated_note note1 body_no_tags env0; twin] true]) /\
  tags twin = ["x"] /\
  tags twin <> [].
Proof.
  split_and!; try done.
  - intros S O A HA.
    rewrite (loadNotes_notes S O A [note1_json; twin_json] [note1; twin] eq_refl).
    cbn [length]. by rewrite (proj2 (Z.ltb_ge _ _)) by lia.
  - right; left.
Qed.

(** ** C10: start-up on an arbitrary file *)

(** C10, as amended.  [loadNotes] does not look at the shape of what the file
    holds.  A read or parse failure leaves the collection empty and the
    counter at 1.  Whenever the content parses, the parsed value becomes the
    collection, whatever it is.  If that value is not an array, or is an
    array with a [null] element, or is an array with as many elements as the
    engine passes arguments in one call or more, the counter computation
    throws, the exception is swallowed and the counter stays 1.  Otherwise,
    if it is an array of objects whose [id]s are all numbers (safe integers),
    the counter is the largest id (or 0) plus one; and if it is an array of
    objects whose [id], where there is one, is a number, and some object has
    none, nothing is thrown and the counter becomes [NaN]. *)
Theorem loadNotes_takes_any_value
    (S : string -> number) (O : json -> option number) (A : Z) (v : json) :
  Startup.loadNotes S O A Startup.ReadFailed Startup.initial = Startup.initial /\
  Startup.loadNotes S O A Startup.ParseFailed Startup.initial = Startup.initial /\
  Startup.notes (Startup.loadNotes S O A (Startup.Parsed v) Startup.initial) = v /\
  ((forall items, v <> JArr items) ->
     Startup.nextId (Startup.loadNotes S O A (Startup.Parsed v) Startup.initial) = Num 1) /\
  (forall items, v = JArr items -> JNull ∈ items ->
     Startup.nextId (Startup.loadNotes S O A (Startup.Parsed v) Startup.initial) = Num 1) /\
  (forall items, v = JArr items -> A <= Z.of_nat (length items) ->
     Startup.nextId (Startup.loadNotes S O A (Startup.Parsed v) Startup.initial) = Num 1) /\
  (forall items, v = JArr items -> Z.of_nat (length items) < A ->
     forallb has_numeric_id items = true -> Forall safe (numeric_ids items) ->
     Startup.nextId (Startup.loadNotes S O A (Startup.Parsed v) Startup.initial)
     = Num (max_id (numeric_ids items) + 1)) /\
  (forall items, v = JArr items -> Z.of_nat (length items) < A ->
     forallb id_numeric_or_absent items = true -> existsb id_absent items = true ->
     Startup.nextId (Startup.loadNotes S O A (Startup.Parsed v) Startup.initial) = NaN).
Proof.
  destruct (loadNotes_parsed S O A v Startup.initial) as [Hnotes Hnext].
  split_and!; try done; rewrite Hnext.
  - intros Hv. by rewrite next_after_not_array.
  - intros items -> Hnull. unfold Startup.next_after.
    by rewrite map_ids_null.
  - intros items -> Hlen. by rewrite next_after_too_long.
  - intros items -> Hlen Hall Hsafe.
    rewrite next_after_objects by (by try apply has_numeric_id_weaken).
    rewrite max2_numeric by done. cbn [add1].
    by rewrite (round53_exact _ (safe_succ_exact _ (max_id_safe _ Hsafe))).
  - intros items -> Hlen Hall Hex. rewrite next_after_objects by done.
    by rewrite max2_absent.
Qed.

Example loadNotes_samples :
  forall S O,
    Startup.loadNotes S O A0 (Startup.Parsed (JNum 5)) Startup.initial
      = {| Startup.notes := JNum 5; Startup.nextId := Num 1 |} /\
    Startup.loadNotes S O A0 (Startup.Parsed (JArr [JObj [("id", JNum 5)]; JNull]))
        Startup.initial
      = {| Startup.notes := JArr [JObj [("id", JNum 5)]; JNull]; Startup.nextId := Num 1 |} /\
    Startup.loadNotes S O A0
        (Startup.Parsed (JArr [JObj [("id", JNum 5)]; JObj [("id", JNum 2)]]))
        Startup.initial
      = {| Startup.notes := JArr [JObj [("id", JNum 5)]; JObj [("id", JNum 2)]];
           Startup.nextId := Num 6 |} /\
    Startup.loadNotes S O A0 (Startup.Parsed (JArr [JNum 7; JBool true])) Startup.initial
      = {| Startup.notes := JArr [JNum 7; JBool true]; Startup.nextId := NaN |} /\
    Startup.loadNotes S O A0 (Startup.Parsed (JArr [])) Startup.initial = Startup.initial /\
    Startup.loadNotes S O 2 (Startup.Parsed (JArr [JObj [("id", JNum 5)]; JObj [("id", JNum 2)]]))
        Startup.initial
      = {| Startup.notes := JArr [JObj [("id", JNum 5)]; JObj [("id", JNum 2)]];
           Startup.nextId := Num 1 |}.
Proof. intros S O. repeat split; reflexivity. Qed.

(** C10, as stated, fails: [[{}]] is not an array of objects with numeric
    [id] fields, the collection is set to it, but the counter computation
    throws nothing ([Math.max(undefined, 0)] is [NaN]) and the counter does
    not stay at 1. *)
Lemma counter_becomes_NaN :
  array_of_identified (JArr [JObj []]) = false /\
  (forall S O A, 1 < A ->
     Startup.loadNotes S O A (Startup.Parsed (JArr [JObj []])) Startup.initial
     = {| Startup.notes := JArr [JObj []]; Startup.nextId := NaN |}) /\
  NaN <> Num 1.
Proof.
  split_and!; [reflexivity | | discriminate].
  intros S O A HA. cbn [Startup.loadNotes].
  rewrite (next_after_objects S O A [JObj []]); [done|cbn; lia|done].
Qed.


(* ================================================================= *)
(** * Part V: further properties of the program *)

(** ** One request, case by case *)

(** What a request comes to: nothing but a response (a read, a rejection, an
    id that is not there), a note created, a note updated, or a note
    removed. *)
Lemma handle_cases r e st :
  (exists res, handle r e st = (st, res, []) /\ status res ∈ [200; 400; 404; 500]) \/
  (exists body,
     r = POST_notes body /\ validateNote body = Next /\
     handle r e st =
       ({| notes := notes st ++ [created_note st body e]; nextId := nextId st + 1 |},
        respond 201 (RNote (created_note st body e)),
        saveNotes e {| notes := notes st ++ [created_note st body e];
                       nextId := nextId st + 1 |})) \/
  (exists param n body i x,
     r = PUT_note param body /\ validateNote body = Next /\
     JsNumber.parseInt param = Num n /\ findIndex (Num n) (notes st) = Some (i, x) /\
     handle r e st =
       ({| notes := <[i := updated_note x body e]> (notes st); nextId := nextId st |},
        respond 200 (RNote (updated_note x body e)),
        saveNotes e {| notes := <[i := updated_note x body e]> (notes st);
                       nextId := nextId st |})) \/
  (exists param n i x,
     r = DELETE_note param /\
     JsNumber.parseInt param = Num n /\ findIndex (Num n) (notes st) = Some (i, x) /\
     handle r e st =
       ({| notes := delete i (notes st); nextId := nextId st |},
        respond 204 REmpty,
        saveNotes e {| notes := delete i (notes st); nextId := nextId st |})).
Proof.
  assert (Hin : forall z : Z, z ∈ [200; 400; 404; 500] <->
                              z = 200 \/ z = 400 \/ z = 404 \/ z = 500).
  { intros z. rewrite !elem_of_cons, elem_of_nil. tauto. }
  destruct r as [body|tag q|param|param body|param|].
  - destruct (validateNote body) as [res|] eqn:Hv.
    + left. exists res. cbn [handle]. rewrite Hv. split; [done|].
      destruct (validateNote_rejects _ _ Hv) as (msg & -> & _). apply Hin. auto.
    + right; left. exists body. split_and!; [done..|]. by apply create_valid.
  - left. eexists. split; [reflexivity|]. apply Hin. unfold list_notes.
    destruct (match truthy_param q with Some _ => _ | None => _ end); cbn; auto.
  - left. eexists. split; [reflexivity|]. apply Hin. unfold get_note.
    destruct (isNaN _); [cbn; auto|]. destruct (find _ _); cbn; auto.
  - destruct (validateNote body) as [res|] eqn:Hv.
    { left. exists res. cbn [handle]. rewrite Hv. split; [done|].
      destruct (validateNote_rejects _ _ Hv) as (msg & -> & _). apply Hin. auto. }
    destruct (JsNumber.parseInt param) as [|n] eqn:Hp.
    { left. exists invalid_id. cbn [handle]. rewrite Hv. unfold update. rewrite Hp.
      split; [done|]. apply Hin. cbn. auto. }
    destruct (findIndex (Num n) (notes st)) as [[i x]|] eqn:Hf.
    + right; right; left. exists param, n, body, i, x.
      split_and!; [done..|]. by apply (update_found _ n).
    + left. exists not_found. cbn [handle]. rewrite Hv. unfold update. rewrite Hp, Hf.
      split; [done|]. apply Hin. cbn. auto.
  - destruct (JsNumber.parseInt param) as [|n] eqn:Hp.
    { left. exists invalid_id. cbn [handle]. unfold remove. rewrite Hp.
      split; [done|]. apply Hin. cbn. auto. }
    destruct (findIndex (Num n) (notes st)) as [[i x]|] eqn:Hf.
    + right; right; right. exists param, n, i, x.
      split_and!; [done..|]. by apply (remove_found _ n _ _ _ x).
    + left. exists not_found. cbn [handle]. unfold remove. rewrite Hp, Hf.
      split; [done|]. apply Hin. cbn. auto.
  - left. exists route_not_found. split; [done|]. apply Hin. cbn. auto.
Qed.

(** A request answered 201 takes the counter's value and advances the
    counter; any other leaves the counter alone and hands out no id. *)
Lemma handle_counter r e st :
  (assigned (response_of (handle r e st)) = [nextId st] /\
   nextId (store_of (handle r e st)) = nextId st + 1) \/
  (assigned (response_of (handle r e st)) = [] /\
   nextId (store_of (handle r e st)) = nextId st).
Proof.
  destruct (handle_cases r e st)
    as [(res & -> & Hres)|[(body & _ & _ & ->)|
        [(param & n & body & i & x & _ & _ & _ & _ & ->)|
         (param & n & i & x & _ & _ & _ & ->)]]]; cbn; auto.
  right. split; [|done]. unfold assigned.
  destruct (Z.eqb_spec (status res) 201) as [Heq|]; [|done].
  rewrite Heq in Hres. rewrite !elem_of_cons, elem_of_nil in Hres. lia.
Qed.

Lemma run_serve reqs : forall st hist, (run reqs st).1 = (serve reqs st hist).1.
Proof.
  induction reqs as [|[r e] reqs IH]; intros st hist; [done|].
  cbn [run serve]. cbn. apply IH.
Qed.

Lemma last_write_app effs effs' :
  last_write (effs ++ effs') =
  match last_write effs' with
  | Some data => Some data
  | None => last_write effs
  end.
Proof.
  unfold last_write. rewrite omap_app.
  destruct (omap written effs') as [|d l] eqn:Hl using rev_ind.
  - by rewrite app_nil_r.
  - rewrite app_assoc, !last_snoc. done.
Qed.

Lemma last_write_saveNotes e st : last_write (saveNotes e st) = Some (notes st).
Proof. unfold saveNotes. by destruct (write_ok e). Qed.

(** [findIndex] after the note found has been replaced by one of the same id. *)
Lemma findIndex_insert n l i x x' :
  findIndex (Num n) l = Some (i, x) -> id x' = n ->
  findIndex (Num n) (<[i := x']> l) = Some (i, x').
Proof.
  intros (Hi & Hid & Hbefore)%findIndex_Some Hid'. apply findIndex_Some.
  split_and!; [|done|].
  - apply list_lookup_insert_eq. by eapply lookup_lt_Some.
  - intros j y Hj Hlt. rewrite list_lookup_insert_ne in Hj by lia.
    by apply (Hbefore j y).
Qed.

Lemma find_cons m x l :
  find m (x :: l) = if decide (has_id m x) then Some x else find m l.
Proof.
  unfold find. cbn [list_find]. destruct (decide (has_id m x)); [done|].
  rewrite <- option_fmap_compose. done.
Qed.

Lemma find_insert_other m n l : forall i x x',
  l !! i = Some x -> id x = n -> id x' = n -> n <> m ->
  find (Num m) (<[i := x']> l) = find (Num m) l.
Proof.
  induction l as [|y l IH]; intros i x x' Hi Hx Hx' Hne; [done|].
  destruct i as [|i]; cbn -[find] in Hi |- *.
  - injection Hi as ->. rewrite !find_cons.
    rewrite !decide_False by (rewrite has_id_spec; lia). done.
  - rewrite !find_cons. destruct (decide (has_id (Num m) y)); [done|].
    by apply (IH i x).
Qed.

Lemma find_delete_other m l : forall i x,
  l !! i = Some x -> id x <> m -> find (Num m) (delete i l) = find (Num m) l.
Proof.
  induction l as [|y l IH]; intros i x Hi Hx; [done|].
  destruct i as [|i]; cbn -[find] in Hi |- *.
  - injection Hi as ->. rewrite find_cons.
    by rewrite decide_False by (by rewrite has_id_spec).
  - rewrite !find_cons. destruct (decide (has_id (Num m) y)); [done|].
    by apply (IH i x).
Qed.

Lemma get_note_find param m st :
  JsNumber.parseInt param = Num m ->
  get_note param st = match find (Num m) (notes st) with
                      | None => not_found
                      | Some note => respond 200 (RNote note)
                      end.
Proof. intros Hp. unfold get_note. by rewrite Hp. Qed.


(** The ids handed out in a run are consecutive, from the counter's value at
    the start. *)
Lemma serve_assigned reqs : forall st hist,
  nextId st <= nextId (serve reqs st hist).1 /\
  (serve reqs st hist).2 =
    hist ++ seqZ (nextId st) (nextId (serve reqs st hist).1 - nextId st).
Proof.
  induction reqs as [|[r e] reqs IH]; intros st hist; cbn [serve]; cbv zeta.
  - cbn. rewrite Z.sub_diag. cbn. by rewrite app_nil_r.
  - destruct (IH (store_of (handle r e st))
                 (hist ++ assigned (response_of (handle r e st)))) as [Hle ->].
    destruct (handle_counter r e st) as [[Ha Hn]|[Ha Hn]]; rewrite Ha, Hn in *.
    + split; [lia|]. rewrite <- app_assoc. f_equal.
      replace (nextId (serve reqs (store_of (handle r e st)) (hist ++ [nextId st])).1
               - nextId st)
        with (1 + (nextId (serve reqs (store_of (handle r e st)) (hist ++ [nextId st])).1
                   - (nextId st + 1))) by lia.
      rewrite seqZ_app by lia. done.
    + split; [lia|]. by rewrite app_nil_r.
Qed.

(** ** White space at the ends of a trimmed string *)

Section TrimFacts.
Import JsString.

Lemma first_char_trimStart s : not_whitespace (first_char (trimStart s)).
Proof.
  induction s as [|c s IH]; [done|]. cbn [trimStart].
  by destruct (is_whitespace c) eqn:Hc.
Qed.

Lemma last_char_trimEnd s : not_whitespace (last_char (trimEnd s)).
Proof.
  induction s as [|c s IH]; [done|]. cbn [trimEnd].
  destruct (trimEnd s) as [|d u].
  - by destruct (is_whitespace c) eqn:Hc.
  - done.
Qed.

Lemma first_char_trimEnd s :
  not_whitespace (first_char s) -> not_whitespace (first_char (trimEnd s)).
Proof.
  destruct s as [|c s]; [done|]. cbn. intros Hc.
  destruct (trimEnd s); [by rewrite Hc | done].
Qed.

Lemma tidy_trim s : tidy (trim s).
Proof.
  split; [apply first_char_trimEnd, first_char_trimStart | apply last_char_trimEnd].
Qed.

End TrimFacts.

(** The notes the handlers build are clean. *)
Lemma created_note_clean st body e :
  validateNote body = Next -> clean (created_note st body e).
Proof.
  intros (_ & _ & Ht & Hc & _)%validateNote_passes.
  split_and!; cbn; [done|apply tidy_trim|done|apply tidy_trim|].
  apply Forall_fmap, Forall_forall. intros s _. apply tidy_trim.
Qed.

Lemma updated_note_clean x body e :
  validateNote body = Next -> clean (updated_note x body e).
Proof.
  intros (_ & _ & Ht & Hc & _)%validateNote_passes.
  split_and!; cbn; [done|apply tidy_trim|done|apply tidy_trim|].
  apply Forall_fmap, Forall_forall. intros s _. apply tidy_trim.
Qed.

(** A tag parameter that is not a string: the callback throws at the first
    note that has a tag. *)
Lemma filter_with_other l :
  filter_with (tag_filter QOther) l =
  if decide (Exists (fun note => tags note <> []) l) then None else Some [].
Proof.
  induction l as [|x l IH]; [done|]. cbn [filter_with]. rewrite IH.
  destruct (tags x) as [|t ts] eqn:Hx; cbn.
  - rewrite Hx. cbn.
    destruct (decide (Exists _ l)) as [Hl|Hl]; cbn.
    + rewrite decide_True; [done|]. by right.
    + rewrite decide_False; [done|]. intros [Hx'|Hl']%Exists_cons; [by rewrite Hx in Hx'|done].
  - rewrite Hx. cbn. rewrite decide_True; [done|]. left. by rewrite Hx.
Qed.

(** Reading a written note back. *)
Lemma decode_encode_note note : Startup.decode_note (encode_note note) = Some note.
Proof.
  assert (mapM Startup.as_string (JStr <$> tags note) = Some (tags note)) as Htags.
  { apply mapM_Some, Forall2_fmap_l, Forall_Forall2_diag, Forall_forall. by intros s _. }
  unfold Startup.decode_note, encode_note.
  repeat first [rewrite decide_True by done | rewrite decide_False by done
               | progress cbn [prop]].
  rewrite Htags. cbn. by destruct note.
Qed.

Lemma restarted_eq S O A data :
  restarted S O A data
  = Some {| notes := data;
            nextId := if A <? Z.of_nat (length data) + 1 then 1
                      else round53 (max_id (map id data) + 1) |}.
Proof.
  unfold restarted, read_back. apply loadNotes_notes.
  apply mapM_Some, Forall2_fmap_l, Forall_Forall2_diag, Forall_forall.
  intros note _. apply decode_encode_note.
Qed.

Lemma restarted_safe S O A data :
  Z.of_nat (length data) < A -> Forall safe (map id data) ->
  restarted S O A data = Some {| notes := data; nextId := max_id (map id data) + 1 |}.
Proof.
  intros Hlen Hsafe. rewrite restarted_eq.
  rewrite (proj2 (Z.ltb_ge _ _)) by lia.
  by rewrite (round53_exact _ (safe_succ_exact _ (max_id_safe _ Hsafe))).
Qed.

(** Ids and creation times over one request: a note of the collection after
    it has the id and the [createdAt] of a note that was there before, or it
    is the note just created, under the counter's value. *)
Lemma handle_keeps r e st y :
  y ∈ notes (store_of (handle r e st)) ->
  (exists x, x ∈ notes st /\ id x = id y /\ createdAt x = createdAt y) \/
  id y = nextId st /\ nextId (store_of (handle r e st)) = nextId st + 1.
Proof.
  destruct (handle_cases r e st)
    as [(res & -> & _)|[(body & _ & _ & ->)|
        [(param & n & body & i & x & _ & _ & _ & Hf & ->)|
         (param & n & i & x & _ & _ & _ & ->)]]];
    unfold store_of; cbn [fst notes nextId]; intros Hy.
  - left. by exists y.
  - apply elem_of_app in Hy as [Hy|Hy%list_elem_of_singleton].
    + left. by exists y.
    + right. by subst y.
  - left. apply list_elem_of_lookup in Hy as [j Hj].
    apply findIndex_Some in Hf as (Hi & _).
    destruct (decide (j = i)) as [->|Hne].
    + rewrite list_lookup_insert_eq in Hj by (by eapply lookup_lt_Some).
      injection Hj as <-. exists x. split; [by eapply list_elem_of_lookup_2|done].
    + rewrite list_lookup_insert_ne in Hj by done.
      exists y. split; [by eapply list_elem_of_lookup_2|done].
  - left. exists y. split; [|done]. eapply sublist_subseteq; [apply sublist_delete|done].
Qed.

Lemma max_id_lt l k : 0 < k -> Forall (fun i => i < k) l -> 0 <= max_id l < k.
Proof.
  intros Hk Hall. unfold max_id. induction Hall as [|i l Hi _ IH]; cbn [foldr]; lia.
Qed.

(** GET /notes with one string parameter. *)
Lemma list_notes_q q st :
  list_notes None (Some (QStr q)) st = respond 200 (RNotes (filter (text_match q) (notes st))).
Proof.
  unfold list_notes. cbn. destruct (decide (q = EmptyString)) as [->|Hq].
  - cbn. rewrite filter_all; [done | apply text_match_empty].
  - rewrite (bool_decide_eq_false_2 _ Hq). cbn. by rewrite filter_search.
Qed.

Lemma list_notes_tag t st :
  t <> EmptyString ->
  list_notes (Some (QStr t)) None st = respond 200 (RNotes (filter (tag_match t) (notes st))).
Proof.
  intros Ht. unfold list_notes. cbn. rewrite (bool_decide_eq_false_2 _ Ht). cbn.
  by rewrite filter_with_tag.
Qed.

Lemma contains_ci_same_case s q :
  JsString.toLowerCase q = JsString.toLowerCase s -> contains_ci s q.
Proof.
  intros Hq. unfold contains_ci. rewrite Hq. apply includes_spec.
  destruct (JsString.toLowerCase s); cbn; [done|].
  rewrite bool_decide_eq_true_2 by done. cbn.
  assert (forall u, JsString.startsWith u u = true) as ->; [|done].
  induction u; cbn; [done|]. by rewrite bool_decide_eq_true_2.
Qed.

(** ** X1: status codes *)

(** X1. The status codes of the application.  An OPTIONS request is answered
    204 by [cors()]; a request on which the body parser or the router fails
    is answered 500 by the global error handler.  A request dispatched to a
    route is answered with a status of that route: POST /notes 201 or 400,
    GET /notes 200 or 500, GET /notes/:id 200, 400 or 404, PUT /notes/:id
    200, 400 or 404, DELETE /notes/:id 204, 400 or 404, and the catch-all
    404. *)
Theorem status_by_route
    (NODE_ENV : option string) (i : incoming) (e : env) (st : store) :
  match i with
  | Preflight => response_of (app NODE_ENV i e st) = respond 204 REmpty
  | Failed _ => status (response_of (app NODE_ENV i e st)) = 500
  | Dispatched (POST_notes _) => status (response_of (app NODE_ENV i e st)) ∈ [201; 400]
  | Dispatched (GET_notes _ _) => status (response_of (app NODE_ENV i e st)) ∈ [200; 500]
  | Dispatched (GET_note _) => status (response_of (app NODE_ENV i e st)) ∈ [200; 400; 404]
  | Dispatched (PUT_note _ _) => status (response_of (app NODE_ENV i e st)) ∈ [200; 400; 404]
  | Dispatched (DELETE_note _) => status (response_of (app NODE_ENV i e st)) ∈ [204; 400; 404]
  | Dispatched OTHER => response_of (app NODE_ENV i e st) = route_not_found
  end.
Proof.
  destruct i as [|message|r]; [done..|]. cbn [app].
  destruct r as [body|tag q|param|param body|param|].
  - destruct (validateNote body) as [res|] eqn:Hv.
    + cbn [handle]. rewrite Hv.
      destruct (validateNote_rejects _ _ Hv) as (msg & -> & _).
      cbn. rewrite !elem_of_cons. auto.
    + rewrite (create_valid _ _ _ Hv). cbn. rewrite !elem_of_cons. auto.
  - cbn. unfold list_notes.
    destruct (match truthy_param q with Some _ => _ | None => _ end);
      cbn; rewrite !elem_of_cons; auto.
  - cbn. unfold get_note. destruct (isNaN _); [cbn; rewrite !elem_of_cons; auto|].
    destruct (find _ _); cbn; rewrite !elem_of_cons; auto.
  - destruct (validateNote body) as [res|] eqn:Hv.
    { cbn [handle]. rewrite Hv.
      destruct (validateNote_rejects _ _ Hv) as (msg & -> & _).
      cbn. rewrite !elem_of_cons. auto. }
    destruct (JsNumber.parseInt param) as [|n] eqn:Hp.
    { cbn [handle]. rewrite Hv. unfold update. rewrite Hp.
      cbn. rewrite !elem_of_cons. auto. }
    destruct (findIndex (Num n) (notes st)) as [[i x]|] eqn:Hf.
    + rewrite (update_found _ _ _ _ _ _ _ Hp Hv Hf). cbn. rewrite !elem_of_cons. auto.
    + cbn [handle]. rewrite Hv. unfold update. rewrite Hp, Hf.
      cbn. rewrite !elem_of_cons. auto.
  - cbn [handle]. unfold remove.
    destruct (isNaN _); [cbn; rewrite !elem_of_cons; auto|].
    destruct (findIndex _ _) as [[i x]|]; cbn; rewrite !elem_of_cons; auto.
  - done.
Qed.

(** ** X2: failed requests *)

(** X2. A request answered with an error status (400 and above) leaves the
    collection and the counter as they were and writes nothing. *)
Theorem failure_changes_nothing (r : request) (e : env) (st : store) :
  400 <= status (response_of (handle r e st)) ->
  store_of (handle r e st) = st /\ effects_of (handle r e st) = [].
Proof.
  destruct (handle_cases r e st)
    as [(res & -> & _)|[(body & _ & _ & ->)|
        [(param & n & body & i & x & _ & _ & _ & _ & ->)|
         (param & n & i & x & _ & _ & _ & ->)]]]; cbn; [done|lia..].
Qed.

Lemma failure_changes_nothing_witness :
  400 <= status (response_of (handle (PUT_note "7" body_EF) env0 two_notes)) /\
  store_of (handle (PUT_note "7" body_EF) env0 two_notes) = two_notes /\
  effects_of (handle (PUT_note "7" body_EF) env0 two_notes) = [].
Proof.
  assert (400 <= status (response_of (handle (PUT_note "7" body_EF) env0 two_notes))) as H
    by (vm_compute; discriminate).
  split; [exact H|]. exact (failure_changes_nothing _ _ _ H).
Defined.

(** ** X3: what the file holds *)

(** X3. In every run, the data of the last [writeFile] is the collection as it
    is in memory at the end of the run; and if the run wrote nothing, the
    store at the end is the store at the start. *)
Theorem last_write_is_collection (reqs : list (request * env)) (st : store) :
  match last_write (run reqs st).2 with
  | Some data => data = notes (run reqs st).1
  | None => (run reqs st).1 = st
  end.
Proof.
  revert st. induction reqs as [|[r e] reqs IH]; intros st; [done|].
  cbn [run]. cbn [fst snd]. rewrite last_write_app.
  specialize (IH (store_of (handle r e st))).
  destruct (last_write (run reqs (store_of (handle r e st))).2) as [data|]; [done|].
  rewrite IH.
  destruct (handle_cases r e st)
    as [(res & -> & _)|[(body & _ & _ & ->)|
        [(param & n & body & i & x & _ & _ & _ & _ & ->)|
         (param & n & i & x & _ & _ & _ & ->)]]];
    unfold effects_of, store_of; cbn [fst snd]; by rewrite ?last_write_saveNotes.
Qed.

(** ** X4: consecutive ids *)



(** ** X5: the order of the collection *)



(** ** X6: update, then get *)

(** X6. Update, then get. After a valid PUT on an id that a note has, every
    GET on that id answers 200 with the very note the PUT answered with; this
    holds in every collection, repeated ids included. *)
Theorem update_then_get
    (param : string) (n : Z) (body : object) (e : env) (st : store) :
  JsNumber.parseInt param = Num n ->
  validateNote body = Next ->
  n ∈ ids st ->
  exists note,
    response_of (handle (PUT_note param body) e st) = respond 200 (RNote note) /\
    forall param' e', JsNumber.parseInt param' = Num n ->
      response_of (handle (GET_note param') e'
                     (store_of (handle (PUT_note param body) e st)))
      = respond 200 (RNote note).
Proof.
  intros Hp Hv Hin. destruct (findIndex_present n (notes st) Hin) as (i & x & Hf).
  rewrite (update_found _ _ _ _ _ _ _ Hp Hv Hf).
  exists (updated_note x body e). split; [done|].
  intros param' e' Hp'. cbn. eapply get_note_found; [done|]. cbn.
  apply (findIndex_insert n _ i x); [done|]. by apply findIndex_Some in Hf as (_ & ? & _).
Qed.

Lemma update_then_get_witness :
  exists note,
    response_of (handle (PUT_note "1" body_EF) env0 twice_note1) = respond 200 (RNote note) /\
    forall param' e', JsNumber.parseInt param' = Num 1 ->
      response_of (handle (GET_note param') e'
                     (store_of (handle (PUT_note "1" body_EF) env0 twice_note1)))
      = respond 200 (RNote note).
Proof.
  apply (update_then_get "1" 1).
  - reflexivity.
  - reflexivity.
  - left.
Defined.

(** ** X7: create, then delete *)

(** X7. Create, then delete.  In a store whose ids are all below the counter
    and whose counter is a safe integer, a valid POST followed by a DELETE on
    the new note's id gives the collection back as it was before the POST;
    the counter stays advanced, so the id is not handed out again. *)
Theorem create_then_delete (body : object) (e e' : env) (st : store) :
  validateNote body = Next ->
  Forall (fun i => i < nextId st) (ids st) ->
  safe (nextId st) ->
  exists note,
    response_of (handle (POST_notes body) e st) = respond 201 (RNote note) /\
    handle (DELETE_note (JsNumber.toString (id note))) e'
           (store_of (handle (POST_notes body) e st))
    = ({| notes := notes st; nextId := nextId st + 1 |},
       respond 204 REmpty,
       saveNotes e' {| notes := notes st; nextId := nextId st + 1 |}).
Proof.
  intros Hv Hlt _. rewrite (create_valid _ e st Hv).
  exists (created_note st body e). split; [done|].
  unfold store_of. cbn [fst].
  erewrite remove_found; [|apply parseInt_toString|].
  2:{ cbn [notes]. by apply findIndex_appended. }
  cbn [notes nextId].
  assert (delete (length (notes st)) (notes st ++ [created_note st body e]) = notes st)
    as ->; [|done].
  rewrite delete_take_drop, take_app_length.
  rewrite drop_ge by (rewrite length_app; cbn; lia). by rewrite app_nil_r.
Qed.

Lemma create_then_delete_witness :
  exists note,
    response_of (handle (POST_notes body_EF) env0 two_notes) = respond 201 (RNote note) /\
    handle (DELETE_note (JsNumber.toString (id note))) later
           (store_of (handle (POST_notes body_EF) env0 two_notes))
    = ({| notes := notes two_notes; nextId := nextId two_notes + 1 |},
       respond 204 REmpty,
       saveNotes later {| notes := notes two_notes; nextId := nextId two_notes + 1 |}).
Proof.
  apply create_then_delete.
  - reflexivity.
  - repeat constructor.
  - reflexivity.
Defined.

(** ** X8: the size of the collection *)

(** X8. The number of notes changes with the answer of a route and with
    nothing else: after a request dispatched to a route it has grown by one
    with a 201, shrunk by one with a 204 and is the same after any other
    answer; a request that the middleware answers (an OPTIONS request, a
    request on which the body parser or the router fails) leaves it as it
    was. *)
Theorem size_follows_status
    (NODE_ENV : option string) (i : incoming) (e : env) (st : store) :
  Z.of_nat (length (notes (store_of (app NODE_ENV i e st))))
  = Z.of_nat (length (notes st)) + app_growth i (response_of (app NODE_ENV i e st)).
Proof.
  destruct i as [|message|r]; [cbn; lia..|]. cbn [app app_growth].
  destruct (handle_cases r e st)
    as [(res & -> & Hres)|[(body & _ & _ & ->)|
        [(param & n & body & i & x & _ & _ & _ & _ & ->)|
         (param & n & i & x & _ & _ & Hf & ->)]]]; cbn.
  - rewrite !elem_of_cons, elem_of_nil in Hres.
    destruct (Z.eqb_spec (status res) 201); [lia|].
    destruct (Z.eqb_spec (status res) 204); lia.
  - rewrite length_app. cbn. lia.
  - rewrite length_insert. lia.
  - apply findIndex_Some in Hf as (Hi%lookup_lt_Some & _).
    rewrite length_delete by (by apply lookup_lt_is_Some). lia.
Qed.

(** ** X9: one update after another *)

(** X9. The last PUT wins. A valid PUT that follows another PUT on the same id
    leaves the service exactly as it would alone: the same store, the same
    response and the same write. In particular a PUT repeated gives what it
    gave the first time, [updatedAt] apart. *)
Theorem put_overwrites_put
    (param1 param2 : string) (body1 body2 : object) (e1 e2 : env) (st : store) :
  JsNumber.parseInt param1 = JsNumber.parseInt param2 ->
  validateNote body2 = Next ->
  handle (PUT_note param2 body2) e2 (store_of (handle (PUT_note param1 body1) e1 st))
  = handle (PUT_note param2 body2) e2 st.
Proof.
  intros Hpar Hv2.
  destruct (handle_cases (PUT_note param1 body1) e1 st)
    as [(res & -> & _)|[(body & [=] & _)|
        [(param & n & body & i & x & [= <- <-] & Hv1 & Hp & Hf & ->)|
         (param & n & i & x & [=] & _)]]]; [done|].
  unfold store_of. cbn [fst].
  rewrite Hp in Hpar. symmetry in Hpar.
  assert (id x = n) as Hid by (by apply findIndex_Some in Hf as (_ & ? & _)).
  pose proof (findIndex_insert n (notes st) i x (updated_note x body1 e1) Hf Hid) as Hf'.
  rewrite (update_found param2 n body2 e2
             {| notes := <[i := updated_note x body1 e1]> (notes st); nextId := nextId st |}
             i (updated_note x body1 e1) Hpar Hv2 Hf').
  rewrite (update_found param2 n body2 e2 st i x Hpar Hv2 Hf).
  cbn [notes nextId]. rewrite list_insert_insert_eq. unfold updated_note. cbn. done.
Qed.

Lemma put_overwrites_put_witness :
  handle (PUT_note "02" body_no_tags) later
         (store_of (handle (PUT_note "2" body_EF) env0 two_notes))
  = handle (PUT_note "02" body_no_tags) later two_notes.
Proof.
  apply put_overwrites_put.
  - reflexivity.
  - reflexivity.
Defined.

(** ** X10: other notes *)

(** X10. A PUT or a DELETE on one id does not change what GET answers on
    another: for ids [n] and [m] that differ, GET /notes/m answers after the
    request as it did before. *)
Theorem other_ids_unaffected
    (r : request) (param param' : string) (n m : Z) (e e' : env) (st : store) :
  JsNumber.parseInt param = Num n ->
  JsNumber.parseInt param' = Num m ->
  n <> m ->
  (exists body, r = PUT_note param body) \/ r = DELETE_note param ->
  response_of (handle (GET_note param') e' (store_of (handle r e st)))
  = response_of (handle (GET_note param') e' st).
Proof.
  intros Hp Hp' Hne Hr. cbn [handle]. unfold response_of. cbn [fst snd].
  rewrite !(get_note_find _ _ _ Hp').
  destruct (handle_cases r e st)
    as [(res & -> & _)|[(body & -> & _)|
        [(param0 & n0 & body & i & x & -> & _ & Hp0 & Hf & ->)|
         (param0 & n0 & i & x & -> & Hp0 & Hf & ->)]]]; [done|..].
  - by destruct Hr as [[? [=]]|[=]].
  - assert (param0 = param) as -> by (by destruct Hr as [[? [= ->]]|[=]]).
    assert (n0 = n) as -> by congruence.
    apply findIndex_Some in Hf as (Hi & Hid & _).
    unfold store_of. cbn [fst notes].
    by rewrite (find_insert_other m n (notes st) i x).
  - assert (param0 = param) as -> by (by destruct Hr as [[? [=]]|[= ->]]).
    assert (n0 = n) as -> by congruence.
    apply findIndex_Some in Hf as (Hi & Hid & _).
    unfold store_of. cbn [fst notes].
    rewrite (find_delete_other m (notes st) i x); [done..|congruence].
Qed.

Lemma other_ids_unaffected_witness :
  response_of (handle (GET_note "1") env0
                 (store_of (handle (DELETE_note "2") env0 two_notes)))
  = response_of (handle (GET_note "1") env0 two_notes).
Proof.
  apply (other_ids_unaffected _ "2" "1" 2 1).
  - reflexivity.
  - reflexivity.
  - discriminate.
  - by right.
Defined.

(** ** X11: the routes on an id *)

(** X11. The three routes on [/notes/:id] agree on the path parameter. For a
    valid body, either all three answer 400 (no number can be read), or all
    three answer 404 (no note has the id), or GET answers 200 with a note [x]
    at a position [i], PUT answers 200 and replaces position [i], and DELETE
    answers 204 and removes position [i]. *)
Theorem id_routes_agree (param : string) (body : object) (e : env) (st : store) :
  validateNote body = Next ->
  (response_of (handle (GET_note param) e st) = invalid_id /\
   handle (PUT_note param body) e st = (st, invalid_id, []) /\
   handle (DELETE_note param) e st = (st, invalid_id, [])) \/
  (response_of (handle (GET_note param) e st) = not_found /\
   handle (PUT_note param body) e st = (st, not_found, []) /\
   handle (DELETE_note param) e st = (st, not_found, [])) \/
  (exists i x,
     notes st !! i = Some x /\
     response_of (handle (GET_note param) e st) = respond 200 (RNote x) /\
     response_of (handle (PUT_note param body) e st)
       = respond 200 (RNote (updated_note x body e)) /\
     notes (store_of (handle (PUT_note param body) e st))
       = <[i := updated_note x body e]> (notes st) /\
     response_of (handle (DELETE_note param) e st) = respond 204 REmpty /\
     notes (store_of (handle (DELETE_note param) e st)) = delete i (notes st)).
Proof.
  intros Hv. destruct (JsNumber.parseInt param) as [|n] eqn:Hp.
  - left. cbn [handle]. rewrite Hv. unfold get_note, update, remove.
    by rewrite Hp.
  - right. destruct (findIndex (Num n) (notes st)) as [[i x]|] eqn:Hf.
    + right. exists i, x.
      rewrite (update_found _ _ _ _ _ _ _ Hp Hv Hf).
      rewrite (remove_found _ _ e _ _ _ Hp Hf).
      cbn [handle]. unfold response_of, store_of. cbn [fst snd notes].
      rewrite (get_note_found _ _ _ _ _ Hp Hf).
      by apply findIndex_Some in Hf as (? & _).
    + left. apply findIndex_None in Hf.
      rewrite (update_absent _ _ _ _ _ Hp Hv Hf), (remove_absent _ _ _ _ Hp Hf).
      cbn [handle]. unfold response_of. cbn [fst snd].
      by rewrite (get_note_absent _ _ _ Hp Hf).
Qed.

Lemma id_routes_agree_witness :
  (response_of (handle (GET_note "2x") env0 two_notes) = invalid_id /\
   handle (PUT_note "2x" body_EF) env0 two_notes = (two_notes, invalid_id, []) /\
   handle (DELETE_note "2x") env0 two_notes = (two_notes, invalid_id, [])) \/
  (response_of (handle (GET_note "2x") env0 two_notes) = not_found /\
   handle (PUT_note "2x" body_EF) env0 two_notes = (two_notes, not_found, []) /\
   handle (DELETE_note "2x") env0 two_notes = (two_notes, not_found, [])) \/
  (exists i x,
     notes two_notes !! i = Some x /\
     response_of (handle (GET_note "2x") env0 two_notes) = respond 200 (RNote x) /\
     response_of (handle (PUT_note "2x" body_EF) env0 two_notes)
       = respond 200 (RNote (updated_note x body_EF env0)) /\
     notes (store_of (handle (PUT_note "2x" body_EF) env0 two_notes))
       = <[i := updated_note x body_EF env0]> (notes two_notes) /\
     response_of (handle (DELETE_note "2x") env0 two_notes) = respond 204 REmpty /\
     notes (store_of (handle (DELETE_note "2x") env0 two_notes))
       = delete i (notes two_notes)).
Proof. apply id_routes_agree. reflexivity. Defined.

(** ** X12: the second copy *)

(** X12. The two copies of the program answer alike on every request whose
    body [express.json()] has parsed (or that carries none): the handlers of
    [part_000] that have no [try]/[catch] do not throw, in any store, and
    [part_000] gives the outcome of [server.js].  On a POST or a PUT without
    a parsed body, [validateNote] of [part_000] throws and the global error
    handler answers 500; the store is as before. *)
Theorem part_000_agrees
    (NODE_ENV : option string) (message : string)
    (r : request) (e : env) (st : store) :
  Part000.route (Part000.parsed r) e st = Part000.Done (handle r e st) /\
  Part000.handle NODE_ENV message (Part000.parsed r) e st = handle r e st /\
  Part000.handle NODE_ENV message (Part000.Post None) e st
    = (st, respond 500 (RError (if bool_decide (NODE_ENV = Some "production")
                                then "Internal server error" else message)),
       [ConsoleError "Unhandled error:"]) /\
  (forall param,
     Part000.handle NODE_ENV message (Part000.Put param None) e st
     = (st, respond 500 (RError (if bool_decide (NODE_ENV = Some "production")
                                 then "Internal server error" else message)),
        [ConsoleError "Unhandled error:"])).
Proof.
  assert (Part000.route (Part000.parsed r) e st = Part000.Done (handle r e st)) as Hroute.
  { destruct r as [body|tag q|param|param body|param|];
      cbn [Part000.parsed Part000.route handle].
    - by destruct (validateNote body).
    - done.
    - unfold Part000.get_note, get_note. destruct (isNaN _); [done|].
      by destruct (find _ _).
    - destruct (validateNote body) eqn:Hv; [done|].
      unfold Part000.update, update. destruct (isNaN _); [done|].
      destruct (findIndex _ _) as [[i x]|]; [|done].
      by destruct (validateNote_passes body Hv) as (_ & _ & _ & _ & _ & -> & -> & ->).
    - unfold Part000.remove, remove. destruct (isNaN _); [done|].
      by destruct (findIndex _ _) as [[i x]|].
    - done. }
  split_and!; [done| |done|done]. unfold Part000.handle. by rewrite Hroute.
Qed.

(** ** X13: the order of the checks *)

(** X13. [validateNote] checks the title, then the content, then the tags, and
    reports the first check that fails: a bad title gives the title message
    whatever else is wrong, a bad content under a good title the content
    message, and so on; a body with nothing wrong is passed on. *)
Theorem validation_reports_first_failure (body : object) :
  (bad_text "title" body ->
     validateNote body = Reject (respond 400 (RError title_message))) /\
  (~ bad_text "title" body -> bad_text "content" body ->
     validateNote body = Reject (respond 400 (RError content_message))) /\
  (~ bad_text "title" body -> ~ bad_text "content" body -> tags_not_array body ->
     validateNote body = Reject (respond 400 (RError tags_array_message))) /\
  (~ bad_text "title" body -> ~ bad_text "content" body -> tags_bad_element body ->
     validateNote body = Reject (respond 400 (RError tags_element_message))) /\
  (~ invalid body -> validateNote body = Next).
Proof.
  rewrite validateNote_unfold.
  assert (Hok : forall k, ~ bad_text k body -> text_ok (prop k body) = true).
  { intros k Hk. destruct (text_ok (prop k body)) eqn:H; [done|].
    by apply text_ok_spec in H. }
  split_and!.
  - intros Ht%text_ok_spec. by rewrite Ht.
  - intros Ht%Hok Hc%text_ok_spec. by rewrite Ht, Hc.
  - intros Ht%Hok Hc%Hok (v & Hv & Hna). rewrite Ht, Hc, Hv.
    destruct v; try done. by destruct (Hna items).
  - intros Ht%Hok Hc%Hok (items & x & Hv & Hx & Hs). rewrite Ht, Hc, Hv. cbn.
    assert (forallb tag_is_string items = false) as ->; [|done].
    apply every_string_false. eauto.
  - intros Hinv.
    destruct (validateNote body) as [res|] eqn:Hv; rewrite validateNote_unfold in Hv;
      [|by rewrite Hv].
    exfalso. rewrite <- validateNote_unfold in Hv.
    destruct (validateNote_rejects _ _ Hv) as (msg & _ & Hmsg).
    apply Hinv. unfold invalid. unfold names_failing_field in Hmsg. tauto.
Qed.

(** ** X14: accepted bodies *)

(** X14. A body with nothing wrong is accepted by POST as it stands: the
    answer is 201 with a note whose id is the counter's value, whose title and
    content are the body's, trimmed, whose tags are the body's, each trimmed,
    in the order given (none when the body has no [tags]), and whose two times
    are the two readings of the clock; the note is appended to the collection,
    the counter advances by one and the new collection is written. *)
Theorem valid_body_creates (body : object) (e : env) (st : store) :
  ~ invalid body ->
  safe (nextId st) ->
  exists t c,
    prop "title" body = Some (JStr t) /\
    prop "content" body = Some (JStr c) /\
    (prop "tags" body = None /\ body_tags body = [] \/
     prop "tags" body = Some (JArr (JStr <$> body_tags body))) /\
    let note := {| id := nextId st; title := JsString.trim t;
                   content := JsString.trim c;
                   tags := JsString.trim <$> body_tags body;
                   createdAt := now e; updatedAt := now_again e |} in
    handle (POST_notes body) e st =
      ({| notes := notes st ++ [note]; nextId := nextId st + 1 |},
       respond 201 (RNote note),
       WriteFile (notes st ++ [note]) (write_ok e) ::
       (if write_ok e then [] else [ConsoleError "Error saving notes:"])).
Proof.
  intros Hinv _.
  assert (validateNote body = Next) as Hv.
  { destruct (validateNote body) as [res|] eqn:Hv; [|done].
    destruct (validateNote_rejects _ _ Hv) as (msg & _ & Hmsg).
    destruct Hinv. unfold invalid. unfold names_failing_field in Hmsg. tauto. }
  destruct (validateNote_passes body Hv) as (Ht & Hc & _ & _ & Htags & _).
  exists (body_text "title" body), (body_text "content" body).
  split_and!; [done|done| |].
  - destruct Htags as [Hnone|Hsome]; [left|by right].
    split; [done|]. unfold body_tags. by rewrite Hnone.
  - cbv zeta. by rewrite (create_valid _ e st Hv).
Qed.

Lemma valid_body_creates_witness :
  exists t c,
    prop "title" body_EF = Some (JStr t) /\
    prop "content" body_EF = Some (JStr c) /\
    (prop "tags" body_EF = None /\ body_tags body_EF = [] \/
     prop "tags" body_EF = Some (JArr (JStr <$> body_tags body_EF))) /\
    let note := {| id := nextId two_notes; title := JsString.trim t;
                   content := JsString.trim c;
                   tags := JsString.trim <$> body_tags body_EF;
                   createdAt := now env0; updatedAt := now_again env0 |} in
    handle (POST_notes body_EF) env0 two_notes =
      ({| notes := notes two_notes ++ [note]; nextId := nextId two_notes + 1 |},
       respond 201 (RNote note),
       WriteFile (notes two_notes ++ [note]) (write_ok env0) ::
       (if write_ok env0 then [] else [ConsoleError "Error saving notes:"])).
Proof.
  apply valid_body_creates; [|reflexivity].
  intros [Ht|[Hc|[Ha|He]]].
  - by apply text_ok_spec in Ht.
  - by apply text_ok_spec in Hc.
  - destruct Ha as (v & [= <-] & Hv). by destruct (Hv [JStr " t1 "; JStr "t2"]).
  - destruct He as (items & x & [= <-] & Hx & Hs).
    apply elem_of_cons in Hx as [->|Hx]; [by destruct (Hs " t1 ")|].
    apply elem_of_cons in Hx as [->|Hx]; [by destruct (Hs "t2")|].
    by apply elem_of_nil in Hx.
Defined.

(** ** X15: trimmed text *)

(** X15. Stored notes stay clean. If every note of the collection has a title
    and a content that are not empty and carry no white space at either end,
    and tags without white space at either end, then so has every note of the
    collection after any run: the handlers store trimmed text only, and never
    an empty title or content. *)
Theorem stored_notes_stay_clean (reqs : list (request * env)) (st : store) :
  Forall clean (notes st) -> Forall clean (notes (run reqs st).1).
Proof.
  revert st. induction reqs as [|[r e] reqs IH]; intros st Hst; [done|].
  cbn [run]. cbn [fst]. apply IH.
  destruct (handle_cases r e st)
    as [(res & -> & _)|[(body & _ & Hv & ->)|
        [(param & n & body & i & x & _ & Hv & _ & _ & ->)|
         (param & n & i & x & _ & _ & _ & ->)]]];
    unfold store_of; cbn [fst notes].
  - done.
  - apply Forall_app. split; [done|]. apply Forall_singleton.
    by apply created_note_clean.
  - apply Forall_insert; [done|]. by apply updated_note_clean.
  - by apply Forall_delete.
Qed.

Lemma stored_notes_stay_clean_witness :
  Forall clean (notes (run [(POST_notes body_EF, env0); (PUT_note "1" body_EF, later)]
                           empty_store).1).
Proof. apply stored_notes_stay_clean. constructor. Defined.

(** ** X16: blank tags *)

(** X16. Validation does not look inside a tag: a tag made of white space only
    is accepted, and the note is stored with the empty string among its tags,
    where a title or a content made of white space is rejected. *)
Theorem blank_tag_stored_empty
    (body : object) (items : list json) (s : string) (e : env) (st : store) :
  validateNote body = Next ->
  prop "tags" body = Some (JArr items) ->
  JStr s ∈ items ->
  whitespace_only s ->
  exists note,
    response_of (handle (POST_notes body) e st) = respond 201 (RNote note) /\
    EmptyString ∈ tags note /\
    note ∈ notes (store_of (handle (POST_notes body) e st)).
Proof.
  intros Hv Htags Hs Hw. rewrite (create_valid _ e st Hv).
  exists (created_note st body e). split_and!; [done| |].
  - cbn. apply list_elem_of_fmap. exists s. split; [by symmetry; apply trim_empty|].
    unfold body_tags. rewrite Htags. apply list_elem_of_omap. by exists (JStr s).
  - cbn. apply elem_of_app. right. left.
Qed.

Lemma blank_tag_stored_empty_witness :
  exists note,
    response_of (handle (POST_notes [("title", JStr "t"); ("content", JStr "c");
                                     ("tags", JArr [JStr "  "])]) env0 empty_store)
      = respond 201 (RNote note) /\
    EmptyString ∈ tags note /\
    note ∈ notes (store_of (handle (POST_notes [("title", JStr "t"); ("content", JStr "c");
                                                ("tags", JArr [JStr "  "])]) env0 empty_store)).
Proof.
  apply (blank_tag_stored_empty _ [JStr "  "] "  ").
  - reflexivity.
  - reflexivity.
  - left.
  - apply trim_empty. reflexivity.
Defined.

(** ** X17: internal server errors *)

Lemma route_internal_error (r : request) (e : env) (st : store) :
  (response_of (handle r e st) = internal_error <->
   exists tag q,
     r = GET_notes tag q /\
     (q = Some QOther \/
      tag = Some QOther /\ exists note, note ∈ notes st /\ tags note <> [])) /\
  (forall q, q <> Some QOther ->
     ~ (exists note, note ∈ notes st /\ tags note <> []) ->
     response_of (handle (GET_notes (Some QOther) q) e st) = respond 200 (RNotes [])).
Proof.
  assert (Hex : Exists (fun note => tags note <> []) (notes st) <->
                exists note, note ∈ notes st /\ tags note <> []) by apply Exists_exists.
  assert (Hq : forall (q : option qparam) (l : option (list Note)),
            q <> Some QOther ->
            match truthy_param q with
            | Some (QStr q') =>
                l' ← l; Some (List.filter (search_filter (JsString.toLowerCase q')) l')
            | Some QOther => None
            | None => l
            end = None <-> l = None).
  { intros [[s|]|] l Hne; try done; cbn.
    - destruct (bool_decide (s = EmptyString)); [done|]. by destruct l.
  }
  assert (Hqnil : forall q : option qparam,
            q <> Some QOther ->
            match truthy_param q with
            | Some (QStr q') =>
                l' ← Some []; Some (List.filter (search_filter (JsString.toLowerCase q')) l')
            | Some QOther => None
            | None => Some []
            end = Some (@nil Note)).
  { intros [[s|]|] Hne; try done; cbn. by destruct (bool_decide (s = EmptyString)). }
  assert (Hlist : forall tag q,
            list_notes tag q st = internal_error <->
            q = Some QOther \/
            tag = Some QOther /\ exists note, note ∈ notes st /\ tags note <> []).
  { intros tag q. unfold list_notes.
    destruct (decide (q = Some QOther)) as [->|Hne].
    { cbn. split; [by left|done]. }
    set (byTag := match truthy_param tag with Some _ => _ | None => _ end).
    specialize (Hq q byTag Hne).
    destruct (match truthy_param q with Some _ => _ | None => _ end) as [l|] eqn:Hl.
    - split; [done|]. intros [?|[-> Hn]]; [done|]. exfalso.
      assert (byTag = None); [|by apply Hq in H].
      subst byTag. cbn. rewrite filter_with_other. rewrite decide_True; [done|].
      by apply Hex.
    - split; [|done]. intros _. right.
      assert (byTag = None) as Hb by (by apply Hq).
      subst byTag. destruct tag as [[t|]|]; cbn in Hb.
      + destruct (bool_decide (t = EmptyString)); [done|].
        cbn in Hb. by rewrite filter_with_tag in Hb.
      + split; [done|]. rewrite filter_with_other in Hb.
        destruct (decide (Exists _ _)) as [Hn|]; [by apply Hex|done].
      + done. }
  split.
  - split.
    + intros H. destruct (internal_error_only_from_query r e st H) as (tag & q & -> & _).
      exists tag, q. split; [done|]. by apply Hlist.
    + intros (tag & q & -> & H). cbn. by apply Hlist.
  - intros q Hne Hn. cbn. unfold list_notes. cbn [truthy_param mbind option_bind].
    rewrite filter_with_other. rewrite decide_False by (by rewrite Hex).
    by rewrite (Hqnil q Hne).
Qed.

(** X17. Where a 500 "Internal server error" comes from.  A request is
    answered with it exactly when it is dispatched to GET /notes with a [q]
    parameter that is not a string (an array or an object), or with a [tag]
    parameter that is not a string while some note of the collection has a
    tag; or when the body parser, the router or [validateNote] fails on it
    and either [NODE_ENV] is [production] or the error's own message is that
    text.  With a [tag] that is not a string and no tagged note, the answer
    is 200 with no notes. *)
Theorem server_error_iff
    (NODE_ENV : option string) (i : incoming) (e : env) (st : store) :
  (response_of (app NODE_ENV i e st) = internal_error <->
   (exists tag q,
      i = Dispatched (GET_notes tag q) /\
      (q = Some QOther \/
       tag = Some QOther /\ exists note, note ∈ notes st /\ tags note <> [])) \/
   (exists message,
      i = Failed message /\
      (NODE_ENV = Some "production" \/ message = "Internal server error"))) /\
  (forall q, q <> Some QOther ->
     ~ (exists note, note ∈ notes st /\ tags note <> []) ->
     response_of (app NODE_ENV (Dispatched (GET_notes (Some QOther) q)) e st)
     = respond 200 (RNotes [])).
Proof.
  split; [|intros q; apply (route_internal_error OTHER e st)].
  destruct i as [|message|r].
  - split; [done|]. by intros [(tag & q & ? & _)|(message & ? & _)].
  - cbn [app]. unfold response_of, error_handler, internal_error. cbn [fst snd].
    split.
    + intros H. right. exists message. split; [done|].
      destruct (decide (NODE_ENV = Some "production")) as [Hp|Hp]; [by left|right].
      rewrite bool_decide_eq_false_2 in H by done. unfold respond in H. by simplify_eq.
    + intros [(tag & q & ? & _)|(m & [= <-] & [Hp| ->])]; [done|..].
      * by rewrite bool_decide_eq_true_2.
      * by destruct (bool_decide _).
  - cbn [app]. rewrite (proj1 (route_internal_error r e st)). split.
    + intros (tag & q & -> & H). left. by exists tag, q.
    + intros [(tag & q & [= ->] & H)|(message & ? & _)]; [|done]. by exists tag, q.
Qed.

(** ** X18: restart *)

(** X18. Restart.  A service started on the file that a successful save wrote
    gets the saved collection back, note for note and field for field,
    whatever the counter was before.  When the collection has fewer notes
    than the engine accepts arguments in one call and its ids are safe
    integers, the new counter is the largest id in the collection (or 0)
    plus one; when it has as many notes as that or more, [Math.max(...)]
    throws, and the service has the notes with its counter left at 1. *)
Theorem restart_round_trip
    (S : string -> number) (O : json -> option number) (A : Z) (st : store) :
  Forall (fun note => Startup.decode_note (encode_note note) = Some note) (notes st) /\
  (Z.of_nat (length (notes st)) < A -> Forall safe (ids st) ->
     restarted S O A (notes st)
     = Some {| notes := notes st; nextId := max_id (ids st) + 1 |}) /\
  (A <= Z.of_nat (length (notes st)) ->
     restarted S O A (notes st) = Some {| notes := notes st; nextId := 1 |}).
Proof.
  split_and!.
  - apply Forall_forall. intros note _. apply decode_encode_note.
  - apply restarted_safe.
  - intros Hlen. rewrite restarted_eq. by rewrite (proj2 (Z.ltb_lt _ _)) by lia.
Qed.

(** ** X19: ids across a restart *)

(** X19. An id can come back after a restart.  A service started without a
    notes file serves any run that leaves the counter at most 2^53 and fewer
    notes than the engine accepts arguments in one call; if the note created
    last is no longer in the collection, then the service started again on
    the saved collection has a smaller counter, and its first valid POST
    answers with an id that was handed out before the restart. *)
Theorem restart_reuses_id
    (S : string -> number) (O : json -> option number) (A : Z)
    (reqs : list (request * env)) (body : object) (e : env) :
  validateNote body = Next ->
  exact (nextId (serve reqs empty_store []).1) ->
  Z.of_nat (length (notes (serve reqs empty_store []).1)) < A ->
  nextId empty_store < nextId (serve reqs empty_store []).1 ->
  nextId (serve reqs empty_store []).1 - 1 ∉ ids (serve reqs empty_store []).1 ->
  exists st' note,
    restarted S O A (notes (serve reqs empty_store []).1) = Some st' /\
    nextId st' < nextId (serve reqs empty_store []).1 /\
    response_of (handle (POST_notes body) e st') = respond 201 (RNote note) /\
    id note ∈ (serve reqs empty_store []).2 /\
    id note ∉ ids (serve reqs empty_store []).1.
Proof.
  intros Hv Hexact Hlen Hcreated Hgone.
  destruct (serve_assigned reqs empty_store []) as [_ Hhist].
  destruct (serve_consistent reqs empty_store []) as ([Hlt Hsub] & _).
  { split; [constructor|done]. }
  change (nextId empty_store) with 1 in Hhist, Hcreated.
  cbn [List.app] in Hhist.
  set (st := (serve reqs empty_store []).1) in *.
  set (hist := (serve reqs empty_store []).2) in *.
  assert (Hin : forall i, i ∈ hist <-> 1 <= i < nextId st).
  { intros i. rewrite Hhist, elem_of_seqZ. lia. }
  assert (Hmax : 0 <= max_id (ids st) < nextId st - 1).
  { apply max_id_lt; [lia|]. apply Forall_forall. intros i Hi.
    pose proof (Hsub i Hi) as Hh%Hin.
    assert (i <> nextId st - 1) by (by intros ->). lia. }
  assert (Hsafe : Forall safe (ids st)).
  { apply Forall_forall. intros i Hi. pose proof (Hsub i Hi) as Hh%Hin.
    unfold exact in Hexact. unfold safe. lia. }
  eexists _, (created_note _ body e).
  split_and!; [by apply restarted_safe|..].
  - cbn. fold (ids st). lia.
  - by rewrite (create_valid _ e _ Hv).
  - cbn. fold (ids st). apply Hin. lia.
  - cbn. fold (ids st). intros Hi.
    pose proof (max_id_bound (ids st)) as Hb. rewrite Forall_forall in Hb.
    specialize (Hb _ Hi). lia.
Qed.

Lemma restart_reuses_id_witness :
  exists st' note,
    restarted S0 O0 A0
      (notes (serve [(POST_notes body_AB, env0); (DELETE_note "1", env0)]
                    empty_store []).1) = Some st' /\
    nextId st' < nextId (serve [(POST_notes body_AB, env0); (DELETE_note "1", env0)]
                               empty_store []).1 /\
    response_of (handle (POST_notes body_CD) later st') = respond 201 (RNote note) /\
    id note ∈ (serve [(POST_notes body_AB, env0); (DELETE_note "1", env0)] empty_store []).2 /\
    id note ∉ ids (serve [(POST_notes body_AB, env0); (DELETE_note "1", env0)]
                         empty_store []).1.
Proof.
  apply restart_reuses_id.
  - reflexivity.
  - vm_compute. discriminate.
  - reflexivity.
  - vm_compute. reflexivity.
  - vm_compute. intros H. by apply elem_of_nil in H.
Defined.

(** ** X20: what an update keeps *)



(** ** X21: create, then search *)

(** X21. A created note is found by searching. After a valid POST, GET /notes
    with a [q] that the new note's title or content contains up to case, and
    GET /notes with a non-empty [tag] that one of its tags contains up to
    case, answer 200 with a list that holds the new note; the stored (trimmed)
    title, in any letter case, is such a [q]. *)
Theorem created_note_is_found (body : object) (e e' : env) (st : store) :
  validateNote body = Next ->
  exists note,
    response_of (handle (POST_notes body) e st) = respond 201 (RNote note) /\
    (forall q, text_match q note ->
       exists l,
         response_of (handle (GET_notes None (Some (QStr q))) e'
                        (store_of (handle (POST_notes body) e st)))
         = respond 200 (RNotes l) /\ note ∈ l) /\
    (forall t, t <> EmptyString -> tag_match t note ->
       exists l,
         response_of (handle (GET_notes (Some (QStr t)) None) e'
                        (store_of (handle (POST_notes body) e st)))
         = respond 200 (RNotes l) /\ note ∈ l) /\
    (forall q, JsString.toLowerCase q = JsString.toLowerCase (title note) ->
       text_match q note).
Proof.
  intros Hv. rewrite (create_valid _ e st Hv).
  exists (created_note st body e). split_and!; [done|..].
  - intros q Hq. eexists. cbn [handle]. unfold response_of, store_of. cbn [fst snd].
    split; [apply list_notes_q|]. apply list_elem_of_filter. split; [done|].
    cbn. apply elem_of_app. right. left.
  - intros t Ht Hm. eexists. cbn [handle]. unfold response_of, store_of. cbn [fst snd].
    split; [by apply list_notes_tag|]. apply list_elem_of_filter. split; [done|].
    cbn. apply elem_of_app. right. left.
  - intros q Hq. left. by apply contains_ci_same_case.
Qed.

Lemma created_note_is_found_witness :
  exists note,
    response_of (handle (POST_notes body_EF) env0 two_notes) = respond 201 (RNote note) /\
    (forall q, text_match q note ->
       exists l,
         response_of (handle (GET_notes None (Some (QStr q))) later
                        (store_of (handle (POST_notes body_EF) env0 two_notes)))
         = respond 200 (RNotes l) /\ note ∈ l) /\
    (forall t, t <> EmptyString -> tag_match t note ->
       exists l,
         response_of (handle (GET_notes (Some (QStr t)) None) later
                        (store_of (handle (POST_notes body_EF) env0 two_notes)))
         = respond 200 (RNotes l) /\ note ∈ l) /\
    (forall q, JsString.toLowerCase q = JsString.toLowerCase (title note) ->
       text_match q note).
Proof. apply created_note_is_found. reflexivity. Defined.

(** ** X22: list, then get *)

(** X22. Every note of the collection whose id is a safe integer can be
    fetched by its id: GET on the path built from the id answers 200 with a
    note of the collection that has that id, and with the note itself when
    the ids of the collection are pairwise distinct. *)
Theorem listed_note_is_fetched (note : Note) (e : env) (st : store) :
  note ∈ notes st ->
  safe (id note) ->
  (exists x,
     response_of (handle (GET_note (JsNumber.toString (id note))) e st)
       = respond 200 (RNote x) /\
     x ∈ notes st /\ id x = id note) /\
  (NoDup (ids st) ->
     response_of (handle (GET_note (JsNumber.toString (id note))) e st)
       = respond 200 (RNote note)).
Proof.
  intros Hin _. cbn [handle]. unfold response_of. cbn [fst snd].
  assert (id note ∈ ids st) as Hid by (apply list_elem_of_fmap; eauto).
  destruct (findIndex_present _ _ Hid) as (i & x & Hf).
  rewrite (get_note_found _ _ _ _ _ (parseInt_toString (id note)) Hf).
  pose proof Hf as (Hi & Hx & _)%findIndex_Some.
  split.
  - exists x. split_and!; [done| |done]. by eapply list_elem_of_lookup_2.
  - intros Hnd. destruct (findIndex_unique _ _ note Hnd Hin eq_refl) as (j & Hj & _).
    congruence.
Qed.

Lemma listed_note_is_fetched_witness :
  (exists x,
     response_of (handle (GET_note (JsNumber.toString (id note2))) env0 two_notes)
       = respond 200 (RNote x) /\
     x ∈ notes two_notes /\ id x = id note2) /\
  (NoDup (ids two_notes) ->
     response_of (handle (GET_note (JsNumber.toString (id note2))) env0 two_notes)
       = respond 200 (RNote note2)).
Proof.
  apply listed_note_is_fetched.
  - right; left.
  - reflexivity.
Defined.

(** ** X23: the fields of a body *)

(** X23. POST and PUT read three fields of the body and nothing else: two
    bodies with the same [title], [content] and [tags] get the same outcome,
    whatever other fields they carry. A client cannot set [id], [createdAt] or
    [updatedAt] through the body. *)
Theorem other_fields_ignored (body1 body2 : object) (e : env) (st : store) :
  prop "title" body1 = prop "title" body2 ->
  prop "content" body1 = prop "content" body2 ->
  prop "tags" body1 = prop "tags" body2 ->
  handle (POST_notes body1) e st = handle (POST_notes body2) e st /\
  forall param, handle (PUT_note param body1) e st = handle (PUT_note param body2) e st.
Proof.
  intros Ht Hc Hg.
  assert (validateNote body1 = validateNote body2) as Hv.
  { unfold validateNote. by rewrite Ht, Hc, Hg. }
  split; [|intros param]; cbn [handle]; rewrite Hv;
    destruct (validateNote body2); try done.
  - unfold create, tags_or_default. by rewrite Ht, Hc, Hg.
  - unfold update, tags_or_default. by rewrite Ht, Hc, Hg.
Qed.

Lemma other_fields_ignored_witness :
  handle (POST_notes (("id", JNum 99) :: ("createdAt", JStr "1999") :: body_AB))
         env0 two_notes
  = handle (POST_notes body_AB) env0 two_notes /\
  forall param,
    handle (PUT_note param (("id", JNum 99) :: ("createdAt", JStr "1999") :: body_AB))
           env0 two_notes
    = handle (PUT_note param body_AB) env0 two_notes.
Proof. apply other_fields_ignored; reflexivity. Defined.

(** ** X24: error answers *)

Lemma route_error_bodies (r : request) (e : env) (st : store) :
  400 <= status (response_of (handle r e st)) ->
  response_of (handle r e st) ∈
    [respond 400 (RError title_message); respond 400 (RError content_message);
     respond 400 (RError tags_array_message); respond 400 (RError tags_element_message);
     invalid_id; not_found; route_not_found; internal_error].
Proof.
  assert (Hrej : forall body res, validateNote body = Reject res ->
            res ∈ [respond 400 (RError title_message); respond 400 (RError content_message);
                   respond 400 (RError tags_array_message);
                   respond 400 (RError tags_element_message);
                   invalid_id; not_found; route_not_found; internal_error]).
  { intros body res Hv.
    destruct (validateNote_rejects _ _ Hv)
      as (msg & -> & [[-> _]|[[-> _]|[[-> _]|[-> _]]]]);
      rewrite !elem_of_cons; auto 10. }
  destruct r as [body|tag q|param|param body|param|]; cbn [handle].
  - destruct (validateNote body) as [res|] eqn:Hv; [intros _; by eapply Hrej|].
    pose proof (create_valid _ e st Hv) as Hc. cbn [handle] in Hc. rewrite Hv in Hc.
    rewrite Hc. cbn. lia.
  - unfold response_of. cbn [fst snd]. unfold list_notes.
    destruct (match truthy_param q with Some _ => _ | None => _ end); cbn; [lia|].
    intros _. rewrite !elem_of_cons. auto 10.
  - unfold response_of. cbn [fst snd]. unfold get_note.
    destruct (isNaN _); [intros _; rewrite !elem_of_cons; auto 10|].
    destruct (find _ _); [cbn; lia|]. intros _. rewrite !elem_of_cons. auto 10.
  - destruct (validateNote body) as [res|] eqn:Hv; [intros _; by eapply Hrej|].
    destruct (JsNumber.parseInt param) as [|n] eqn:Hp.
    { unfold update. rewrite Hp. intros _. rewrite !elem_of_cons. auto 10. }
    destruct (findIndex (Num n) (notes st)) as [[i x]|] eqn:Hf.
    + pose proof (update_found _ _ _ e st _ _ Hp Hv Hf) as Hu.
      cbn [handle] in Hu. rewrite Hv in Hu. rewrite Hu. cbn. lia.
    + unfold update. rewrite Hp, Hf. intros _. rewrite !elem_of_cons. auto 10.
  - unfold remove. destruct (isNaN _); [intros _; rewrite !elem_of_cons; auto 10|].
    destruct (findIndex _ _) as [[i x]|]; [cbn; lia|].
    intros _. rewrite !elem_of_cons. auto 10.
  - intros _. rewrite !elem_of_cons. auto 10.
Qed.

(** X24. Error answers.  A request answered with status 400 or above gets
    one of eight fixed responses: 400 with one of the four validation
    messages or with "Invalid note ID", 404 with "Note not found" or "Route
    not found", or 500 with "Internal server error"; or, when the body
    parser, the router or [validateNote] failed on it and [NODE_ENV] is not
    [production], 500 with the message of that error.  The routes themselves
    put no text of an exception and nothing of the request into an error
    body. *)
Theorem error_bodies
    (NODE_ENV : option string) (i : incoming) (e : env) (st : store) :
  400 <= status (response_of (app NODE_ENV i e st)) ->
  response_of (app NODE_ENV i e st) ∈
    [respond 400 (RError title_message); respond 400 (RError content_message);
     respond 400 (RError tags_array_message); respond 400 (RError tags_element_message);
     invalid_id; not_found; route_not_found; internal_error] \/
  (exists message,
     i = Failed message /\ NODE_ENV <> Some "production" /\
     response_of (app NODE_ENV i e st) = respond 500 (RError message)).
Proof.
  destruct i as [|message|r]; cbn [app].
  - cbn. lia.
  - intros _. unfold response_of, error_handler. cbn [fst snd].
    destruct (decide (NODE_ENV = Some "production")) as [Hp|Hp].
    + left. rewrite bool_decide_eq_true_2 by done. rewrite !elem_of_cons. auto 10.
    + right. exists message. by rewrite bool_decide_eq_false_2.
  - intros H. left. by apply route_error_bodies.
Qed.

Lemma error_bodies_witness :
  400 <= status (response_of (app None (Failed "Unexpected end of JSON input")
                                  env0 two_notes)) /\
  (response_of (app None (Failed "Unexpected end of JSON input") env0 two_notes) ∈
     [respond 400 (RError title_message); respond 400 (RError content_message);
      respond 400 (RError tags_array_message); respond 400 (RError tags_element_message);
      invalid_id; not_found; route_not_found; internal_error] \/
   (exists message,
      Failed "Unexpected end of JSON input" = Failed message /\
      None <> Some "production" /\
      response_of (app None (Failed "Unexpected end of JSON input") env0 two_notes)
      = respond 500 (RError message))).
Proof.
  assert (400 <= status (response_of (app None (Failed "Unexpected end of JSON input")
                                          env0 two_notes)))
    as H by (vm_compute; discriminate).
  split; [exact H|]. exact (error_bodies _ _ _ _ H).
Defined.

(** ** X25: positive ids *)

(** X25. Ids stay positive. If the counter and every id of the collection are
    at least 1, as they are in a service started without a notes file, then
    after any run the counter and every id of the collection are at least 1. *)
Theorem ids_stay_positive (reqs : list (request * env)) (st : store) :
  1 <= nextId st ->
  Forall (fun note => 1 <= id note) (notes st) ->
  1 <= nextId (run reqs st).1 /\
  Forall (fun note => 1 <= id note) (notes (run reqs st).1).
Proof.
  revert st. induction reqs as [|[r e] reqs IH]; intros st Hn Hall; [done|].
  cbn [run]. cbn [fst]. apply IH.
  - destruct (handle_counter r e st) as [[_ ->]|[_ ->]]; lia.
  - apply Forall_forall. intros y Hy.
    destruct (handle_keeps r e st y Hy) as [(x & Hx & <- & _)|[-> _]]; [|done].
    rewrite Forall_forall in Hall. by apply Hall.
Qed.

Lemma ids_stay_positive_witness :
  1 <= nextId (run [(POST_notes body_AB, env0); (DELETE_note "1", env0)] empty_store).1 /\
  Forall (fun note => 1 <= id note)
    (notes (run [(POST_notes body_AB, env0); (DELETE_note "1", env0)] empty_store).1).
Proof.
  apply ids_stay_positive.
  - reflexivity.
  - constructor.
Defined.
